(** * Name-blocking plugin of dnscrypt-proxy: model and properties

    Shallow embedding of [dnscrypt-proxy/plugin_block_name.go]:
    [BlockedNames.check], [PluginBlockName.Init], [PluginBlockName.Eval]
    and [PluginBlockNameResponse.Eval].

    Go strings are byte strings: they are modelled as [string].  Go [int]s
    are modelled as [Z].  A Go [error] is modelled by its message, and the
    [nil] error by [None]. *)

From stdpp Require Import base strings gmap list.
From Stdlib Require Import ZArith Ascii DecimalString.

Local Open Scope string_scope.

(** ** Go standard-library string functions used by the plugin *)

Module GoStrings.

(** ASCII upper-case letters, ['A'..'Z']. *)
Definition is_upper (c : ascii) : bool :=
  let n := N_of_ascii c in ((65 <=? n) && (n <=? 90))%N.

Definition lower_ascii (c : ascii) : ascii :=
  if is_upper c then ascii_of_N (N_of_ascii c + 32) else c.

(** [strings.ToLower].  Bytes outside ['A'..'Z'] are kept: this is what Go
    computes on ASCII text, and the names handed to [check] are in DNS
    presentation format, which is ASCII. *)
Fixpoint ToLower (s : string) : string :=
  match s with
  | EmptyString => EmptyString
  | String c r => String (lower_ascii c) (ToLower r)
  end.

(** [unicode.IsSpace] on the ASCII range: tab, line feed, vertical tab,
    form feed, carriage return and space.  The spaces that UTF-8 writes on
    several bytes (U+0085, U+00A0 and beyond) are not recognised: the model
    is Go's on ASCII rule files. *)
Definition IsSpace (c : ascii) : bool :=
  let n := N_of_ascii c in (((9 <=? n) && (n <=? 13)) || (n =? 32))%N.

Fixpoint TrimLeft (s : string) : string :=
  match s with
  | EmptyString => EmptyString
  | String c r => if IsSpace c then TrimLeft r else s
  end.

Fixpoint TrimRight (s : string) : string :=
  match s with
  | EmptyString => EmptyString
  | String c r =>
      match TrimRight r with
      | EmptyString => if IsSpace c then EmptyString else String c EmptyString
      | r' => String c r'
      end
  end.

(** [strings.TrimFunc(s, unicode.IsSpace)]. *)
Definition TrimSpace (s : string) : string := TrimRight (TrimLeft s).

(** [strings.Split(s, sep)] for a one-byte separator: the pieces between
    the separators, so one piece more than there are separators. *)
Fixpoint Split (sep : ascii) (s : string) : list string :=
  match s with
  | EmptyString => [EmptyString]
  | String c r =>
      if Ascii.eqb c sep then EmptyString :: Split sep r
      else match Split sep r with
           | h :: t => String c h :: t
           | [] => [String c EmptyString]
           end
  end.

(** [strings.HasPrefix]. *)
Definition HasPrefix (s p : string) : bool := String.prefix p s.

(** Number of occurrences of a byte. *)
Fixpoint Count (c : ascii) (s : string) : nat :=
  match s with
  | EmptyString => 0
  | String a r => (if Ascii.eqb a c then 1 else 0) + Count c r
  end.

(** The verb [%d] of [fmt.Sprintf]. *)
Definition fmt_d (z : Z) : string := NilZero.string_of_int (Z.to_int z).

(** The verb [%02d]: padded with a zero up to two characters, sign
    included. *)
Definition fmt_02d (z : Z) : string :=
  let s := fmt_d z in
  if (String.length s <? 2)%nat then "0" ++ s else s.

End GoStrings.
Import GoStrings.

(** ** Helper of the repository declared outside the sources *)

(** Modelled from the spec: [StripTrailingDot] is declared in a file of the
    repository that is not part of the sources.  The spec says: "trailing
    [.] (root label) is stripped before storage and before evaluation". *)
Fixpoint StripTrailingDot (s : string) : string :=
  match s with
  | EmptyString => EmptyString
  | String c r =>
      match r with
      | EmptyString => if Ascii.eqb c "." then EmptyString else s
      | _ => String c (StripTrailingDot r)
      end
  end.

(** ** Data model *)

Definition error := string.

(** [time.Time] as far as the plugin and the weekly ranges look at it:
    [Date()], [Clock()], [Weekday()] (Sunday is 0) and [Unix()]. *)
Record Time := {
  year : Z; month : Z; day : Z;
  hour : Z; minute : Z; second : Z;
  weekday : Z;
  unix : Z
}.

(** A value of type [interface{}] stored in [sessionData]. *)
Inductive iface :=
| INil
| IBool (b : bool)
| IString (s : string).

Definition iface_is_nil (v : iface) : bool :=
  match v with INil => true | _ => false end.

(** [dns.Question]. *)
Record dnsQuestion := { Name : string; Qtype : Z; Qclass : Z }.

(** [dns.RR_Header], the fields the plugin reads. *)
Record RR_Header := { Rrtype : Z; Class : Z }.

Definition ClassINET : Z := 1.
Definition TypeCNAME : Z := 5.

(** [dns.RR]: an interface; the dynamic type is either [*dns.CNAME] or
    another record type.  Each carries its own header. *)
Inductive RR :=
| CNAME (Hdr : RR_Header) (Target : string)
| OtherRR (Hdr : RR_Header).

Definition Header (rr : RR) : RR_Header :=
  match rr with CNAME h _ => h | OtherRR h => h end.

(** [dns.Msg], the sections the plugin reads. *)
Record Msg := { Question : list dnsQuestion; Answer : list RR }.

(** [lumberjack.Logger] as configured by [Init]. *)
Record Logger := {
  LocalTime : bool; MaxSize : Z; MaxAge : Z; MaxBackups : Z;
  Filename : string; Compress : bool
}.

(** Severity of a [dlog] message. *)
Inductive Severity := SevNotice | SevError.

Definition LogEntry : Type := Severity * string.

(** The world outside the process: the clock read by [time.Now()] (the
    [reads]-th reading returns [clock reads]) and the lines handed to
    [logger.Write], oldest first. *)
Record World := {
  clock : nat -> Time;
  reads : nat;
  written : list string
}.

Definition tick (w : World) : World :=
  {| clock := clock w; reads := S (reads w); written := written w |}.

Definition append_line (line : string) (w : World) : World :=
  {| clock := clock w; reads := reads w; written := (written w ++ [line])%list |}.

(** ** Collaborators

    Types, constants and functions of the repository that the plugin uses
    and that are declared outside the sources: the plugin framework
    ([PluginsAction], [PluginsReturnCode]), the pattern matcher, the weekly
    ranges, [StringQuote], [ReadTextFile]; and [net.IP] with its [String]
    method.  The plugin is verified for every implementation of them. *)
Class Host := {
  PluginsAction : Type;
  PluginsActionReject : PluginsAction;
  PluginsReturnCode : Type;
  PluginsReturnCodeReject : PluginsReturnCode;
  (** The fields of [PluginsState] that this plugin never mentions. *)
  OtherFields : Type;
  IP : Type;
  IP_String : IP -> string;
  WeeklyRanges : Type;
  (** [WeeklyRanges.Match()], as a function of the instant it reads. *)
  WeeklyRanges_Match : WeeklyRanges -> Time -> bool;
  PatternMatcher : Type;
  NewPatternPatcher : PatternMatcher;
  (** [PatternMatcher.Add(pattern, val, position)]: the matcher after the
      call and the error returned.  [val] is the [*WeeklyRanges] that [Init]
      passes, [None] for the nil pointer. *)
  PatternMatcher_Add :
    PatternMatcher -> string -> option WeeklyRanges -> Z ->
    PatternMatcher * option error;
  (** [PatternMatcher.Eval(qName)]: [(reject, reason, val)].  [val] is an
      [interface{}]: [None] is the nil interface, [Some p] holds the
      [*WeeklyRanges] [p] that was given to [Add], which may be the nil
      pointer. *)
  PatternMatcher_Eval :
    PatternMatcher -> string -> bool * string * option (option WeeklyRanges);
  StringQuote : string -> string;
  (** [ReadTextFile(path)]. *)
  ReadTextFile : string -> string + error
}.

Section Effects.
Context `{H : Host}.

(** [net.Addr]: an interface; the dynamic types the proxy stores. *)
Inductive Addr :=
| UDPAddr (ip : IP)
| TCPAddr (ip : IP).

(** [PluginsState]: the fields the plugin reads or writes, and the others. *)
Record PluginsState := {
  action : PluginsAction;
  returnCode : PluginsReturnCode;
  clientProto : string;
  clientAddr : Addr;
  sessionData : gmap string iface;
  otherFields : OtherFields
}.

Definition set_action (a : PluginsAction) (st : PluginsState) : PluginsState :=
  {| action := a; returnCode := returnCode st; clientProto := clientProto st;
     clientAddr := clientAddr st; sessionData := sessionData st;
     otherFields := otherFields st |}.

Definition set_returnCode (c : PluginsReturnCode) (st : PluginsState)
  : PluginsState :=
  {| action := action st; returnCode := c; clientProto := clientProto st;
     clientAddr := clientAddr st; sessionData := sessionData st;
     otherFields := otherFields st |}.

(** [sessionData[key]]: the nil interface when the key is absent. *)
Definition session_get (st : PluginsState) (key : string) : iface :=
  default INil (sessionData st !! key).

(** *** Effects: plugins state, world, and the two ways not to return *)

Inductive outcome (A : Type) :=
| Returned (a : A) (st : PluginsState) (w : World)
| Exited (msg : string)     (* [dlog.Fatalf]: the message is logged and the process exits *)
| Panicked (msg : string).  (* a type assertion failed *)
Arguments Returned {A} a st w.
Arguments Exited {A} msg.
Arguments Panicked {A} msg.

Definition M (A : Type) : Type := PluginsState -> World -> outcome A.

Definition ret {A} (a : A) : M A := fun st w => Returned a st w.

Definition bind {A B} (m : M A) (k : A -> M B) : M B :=
  fun st w =>
    match m st w with
    | Returned a st' w' => k a st' w'
    | Exited msg => Exited msg
    | Panicked msg => Panicked msg
    end.

Definition get_state : M PluginsState := fun st w => Returned st st w.
Definition modify_state (f : PluginsState -> PluginsState) : M unit :=
  fun st w => Returned tt (f st) w.
Definition Fatalf {A} (msg : string) : M A := fun _ _ => Exited msg.
Definition panic {A} (msg : string) : M A := fun _ _ => Panicked msg.

(** [time.Now()]. *)
Definition time_Now : M Time :=
  fun st w => Returned (clock w (reads w)) st (tick w).

(** [logger.Write([]byte(line))], whose results the plugin discards. *)
Definition logger_Write (lg : Logger) (line : string) : M unit :=
  fun st w => Returned tt st (append_line line w).

(** [weeklyRanges.Match()]: reads the clock. *)
Definition Match (wr : WeeklyRanges) : M bool :=
  bind time_Now (fun now => ret (WeeklyRanges_Match wr now)).

End Effects.

Arguments Returned {H A} a st w.
Arguments Exited {H A} msg.
Arguments Panicked {H A} msg.

Notation "x <- m ;; k" := (bind m (fun x => k))
  (at level 100, m at next level, right associativity).
Notation "m ;;; k" := (bind m (fun _ => k))
  (at level 100, right associativity).

(** ** The plugin *)

Section Code.
Context `{H : Host}.

Record BlockedNames := {
  allWeeklyRanges : gmap string WeeklyRanges;
  patternMatcher : PatternMatcher;
  logger : option Logger;
  format : string
}.

Definition aliasesLimit : Z := 8.

Definition tab : string := String "009" EmptyString.
Definition newline : string := String "010" EmptyString.

(** The client address as text: the two type assertions of [check] on
    [*pluginsState.clientAddr]. *)
Definition clientIP (st : PluginsState) : M string :=
  if String.eqb (clientProto st) "udp" then
    match clientAddr st with
    | UDPAddr ip => ret (IP_String ip)
    | TCPAddr _ => panic "interface conversion: net.Addr is *net.TCPAddr, not *net.UDPAddr"
    end
  else
    match clientAddr st with
    | TCPAddr ip => ret (IP_String ip)
    | UDPAddr _ => panic "interface conversion: net.Addr is *net.UDPAddr, not *net.TCPAddr"
    end.

(** The audit line in the configured format; an unknown format reaches
    [dlog.Fatalf]. *)
Definition format_line (fmt clientIPStr qName reason : string) : M string :=
  if String.eqb fmt "tsv" then
    now <- time_Now ;;
    let tsStr :=
      "[" ++ fmt_d (year now) ++ "-" ++ fmt_02d (month now) ++ "-" ++ fmt_02d (day now)
      ++ " " ++ fmt_02d (hour now) ++ ":" ++ fmt_02d (minute now) ++ ":"
      ++ fmt_02d (second now) ++ "]" in
    ret (tsStr ++ tab ++ clientIPStr ++ tab ++ StringQuote qName ++ tab
         ++ StringQuote reason ++ newline)
  else if String.eqb fmt "ltsv" then
    now <- time_Now ;;
    ret ("time:" ++ fmt_d (unix now) ++ tab ++ "host:" ++ clientIPStr ++ tab
         ++ "qname:" ++ StringQuote qName ++ tab ++ "message:" ++ StringQuote reason
         ++ newline)
  else Fatalf ("Unexpected log format: [" ++ fmt ++ "]").

(** [BlockedNames.check]. *)
Definition check (blockedNames : BlockedNames) (qName : string)
    (aliasFor : option string) : M (bool * option error) :=
  let qName := ToLower (StripTrailingDot qName) in
  let '(reject, reason, xweeklyRanges) :=
    PatternMatcher_Eval (patternMatcher blockedNames) qName in
  let reason :=
    match aliasFor with
    | Some a => reason ++ " (alias for [" ++ StripTrailingDot a ++ "])"
    | None => reason
    end in
  let weeklyRanges : option WeeklyRanges :=
    match xweeklyRanges with
    | Some p => p
    | None => None
    end in
  reject <- (if reject then
               match weeklyRanges with
               | Some wr => m <- Match wr ;; ret (if negb m then false else reject)
               | None => ret reject
               end
             else ret reject) ;;
  if negb reject then ret (false, None)
  else
    modify_state (set_action PluginsActionReject) ;;;
    modify_state (set_returnCode PluginsReturnCodeReject) ;;;
    match logger blockedNames with
    | Some _ =>
        st <- get_state ;;
        clientIPStr <- clientIP st ;;
        line <- format_line (format blockedNames) clientIPStr qName reason ;;
        match logger blockedNames with
        | None => ret (false, Some "Log file not initialized")
        | Some lg => logger_Write lg line ;;; ret (true, None)
        end
    | None => ret (true, None)
    end.

(** [PluginBlockName.Eval].  The first argument is the global variable
    [blockedNames], [None] while it is nil. *)
Definition PluginBlockName_Eval (blockedNames : option BlockedNames) (msg : Msg)
  : M (option error) :=
  st <- get_state ;;
  match blockedNames with
  | None => ret None
  | Some bn =>
      if negb (iface_is_nil (session_get st "whitelisted")) then ret None
      else
        let questions := Question msg in
        match questions with
        | [q] => r <- check bn (Name q) None ;; ret (snd r)
        | _ => ret None
        end
  end.

(** The type assertion of [answer] to a pointer to [dns.CNAME], and its
    [Target]. *)
Definition as_CNAME (answer : RR) : M string :=
  match answer with
  | CNAME _ target => ret target
  | OtherRR _ => panic "interface conversion: dns.RR is not *dns.CNAME"
  end.

(** The loop of [PluginBlockNameResponse.Eval] over the answers that are
    left, with the current value of [aliasesLeft]. *)
Fixpoint walk_answers (bn : BlockedNames) (aliasFor : string) (aliasesLeft : Z)
    (answers : list RR) : M (option error) :=
  match answers with
  | [] => ret None
  | answer :: rest =>
      let header := Header answer in
      if negb (Class header =? ClassINET)%Z || negb (Rrtype header =? TypeCNAME)%Z
      then walk_answers bn aliasFor aliasesLeft rest
      else
        target <- as_CNAME answer ;;
        r <- check bn target (Some aliasFor) ;;
        if fst r || bool_decide (snd r <> None) then ret (snd r)
        else
          let aliasesLeft := (aliasesLeft - 1)%Z in
          if (aliasesLeft =? 0)%Z then ret None
          else walk_answers bn aliasFor aliasesLeft rest
  end.

(** [PluginBlockNameResponse.Eval]. *)
Definition PluginBlockNameResponse_Eval (blockedNames : option BlockedNames)
    (msg : Msg) : M (option error) :=
  st <- get_state ;;
  match blockedNames with
  | None => ret None
  | Some bn =>
      if negb (iface_is_nil (session_get st "whitelisted")) then ret None
      else
        let questions := Question msg in
        match questions with
        | [q] =>
            let aliasFor := Name q in
            walk_answers bn aliasFor aliasesLimit (Answer msg)
        | _ => ret None
        end
  end.

(** *** Loading the rules *)

(** [proxy], the fields [Init] reads. *)
Record Proxy := {
  blockNameFile : string;
  blockNameLogFile : string;
  blockNameFormat : string;
  logMaxSize : Z;
  logMaxAge : Z;
  logMaxBackups : Z;
  proxy_allWeeklyRanges : gmap string WeeklyRanges
}.

(** Lines 111-123 of the loop body: look the time range up, add the rule.
    Returns the matcher and the [dlog] messages. *)
Definition add_rule (ranges : gmap string WeeklyRanges) (lineNo : Z)
    (line timeRangeName : string) (pm : PatternMatcher)
  : PatternMatcher * list LogEntry :=
  let '(weeklyRanges, log1) :=
    if (0 <? String.length timeRangeName)%nat then
      match ranges !! timeRangeName with
      | None =>
          (None, [(SevError, "Time range [" ++ timeRangeName ++ "] not found at line "
                             ++ fmt_d (1 + lineNo))])
      | Some weeklyRangesX => (Some weeklyRangesX, [])
      end
    else (None, []) in
  let '(pm', err) := PatternMatcher_Add pm line weeklyRanges (lineNo + 1) in
  match err with
  | Some e => (pm', (log1 ++ [(SevError, e)])%list)
  | None => (pm', log1)
  end.

(** One iteration of the loop of [Init], for the line of index [lineNo]. *)
Definition load_line (ranges : gmap string WeeklyRanges) (lineNo : Z)
    (line : string) (pm : PatternMatcher) : PatternMatcher * list LogEntry :=
  let line := TrimSpace line in
  if (String.length line =? 0)%nat || HasPrefix line "#" then (pm, [])
  else
    let parts := Split "@" line in
    if (List.length parts =? 2)%nat then
      add_rule ranges lineNo (TrimSpace (nth 0 parts EmptyString))
        (TrimSpace (nth 1 parts EmptyString)) pm
    else if (2 <? List.length parts)%nat then
      (pm, [(SevError, "Syntax error in block rules at line " ++ fmt_d (1 + lineNo)
                       ++ " -- Unexpected @ character")])
    else add_rule ranges lineNo line EmptyString pm.

(** The loop of [Init] over the lines that are left. *)
Fixpoint load_lines (ranges : gmap string WeeklyRanges) (lineNo : Z)
    (lines : list string) (pm : PatternMatcher) : PatternMatcher * list LogEntry :=
  match lines with
  | [] => (pm, [])
  | line :: rest =>
      let '(pm1, log1) := load_line ranges lineNo line pm in
      let '(pm2, log2) := load_lines ranges (lineNo + 1) rest pm1 in
      (pm2, (log1 ++ log2)%list)
  end.

(** Result of [Init]: the error returned, the global [blockedNames] after
    the call, and the [dlog] messages. *)
Record InitResult := {
  init_err : option error;
  init_blockedNames : option BlockedNames;
  init_log : list LogEntry
}.

(** [PluginBlockName.Init].  The second argument is the global
    [blockedNames] before the call. *)
Definition PluginBlockName_Init (proxy : Proxy) (global : option BlockedNames)
  : InitResult :=
  let log0 := [(SevNotice, "Loading the set of blocking rules from ["
                           ++ blockNameFile proxy ++ "]")] in
  match ReadTextFile (blockNameFile proxy) with
  | inr err => {| init_err := Some err; init_blockedNames := global; init_log := log0 |}
  | inl bin =>
      let '(pm, log1) :=
        load_lines (proxy_allWeeklyRanges proxy) 0 (Split "010" bin) NewPatternPatcher in
      let xBlockedNames :=
        {| allWeeklyRanges := proxy_allWeeklyRanges proxy; patternMatcher := pm;
           logger := None; format := EmptyString |} in
      if (String.length (blockNameLogFile proxy) =? 0)%nat then
        {| init_err := None; init_blockedNames := Some xBlockedNames;
           init_log := (log0 ++ log1)%list |}
      else
        {| init_err := None;
           init_blockedNames :=
             Some {| allWeeklyRanges := allWeeklyRanges xBlockedNames;
                     patternMatcher := patternMatcher xBlockedNames;
                     logger := Some {| LocalTime := true;
                                       MaxSize := logMaxSize proxy;
                                       MaxAge := logMaxAge proxy;
                                       MaxBackups := logMaxBackups proxy;
                                       Filename := blockNameLogFile proxy;
                                       Compress := true |};
                     format := blockNameFormat proxy |};
           init_log := (log0 ++ log1)%list |}
  end.

(** *** The rest of the plugin interface *)

(** [PluginBlockName.Name] and [PluginBlockName.Description]. *)
Definition PluginBlockName_Name : string := "block_name".

Definition PluginBlockName_Description : string :=
  "Block DNS queries matching name patterns".

(** [PluginBlockName.Drop] and [PluginBlockName.Reload]: the error returned
    and the global [blockedNames] after the call. *)
Definition PluginBlockName_Drop (global : option BlockedNames)
  : option error * option BlockedNames := (None, global).

Definition PluginBlockName_Reload (global : option BlockedNames)
  : option error * option BlockedNames := (None, global).

(** [PluginBlockNameResponse.Name] and [PluginBlockNameResponse.Description]. *)
Definition PluginBlockNameResponse_Name : string := "block_name".

Definition PluginBlockNameResponse_Description : string :=
  "Block DNS responses matching name patterns".

(** [PluginBlockNameResponse.Init], [Drop] and [Reload]. *)
Definition PluginBlockNameResponse_Init (proxy : Proxy) (global : option BlockedNames)
  : InitResult :=
  {| init_err := None; init_blockedNames := global; init_log := [] |}.

Definition PluginBlockNameResponse_Drop (global : option BlockedNames)
  : option error * option BlockedNames := (None, global).

Definition PluginBlockNameResponse_Reload (global : option BlockedNames)
  : option error * option BlockedNames := (None, global).

End Code.

(** ** Vocabulary of the specification *)

Section Vocabulary.
Context `{H : Host}.

(** The name as [check] hands it to the pattern matcher. *)
Definition normalize (qName : string) : string := ToLower (StripTrailingDot qName).

(** The time gate carried by the value [PatternMatcher.Eval] returns. *)
Definition gate_of (val : option (option WeeklyRanges)) : option WeeklyRanges :=
  match val with
  | Some p => p
  | None => None
  end.

(** A rule without gate is always active; a gated one when its weekly
    ranges match the instant. *)
Definition gate_open (gate : option WeeklyRanges) (now : Time) : bool :=
  match gate with
  | Some wr => WeeklyRanges_Match wr now
  | None => true
  end.

(** The decision the spec prescribes: the matcher reports a match for the
    normalized name and the gate, if any, matches the instant the clock
    shows. *)
Definition should_reject (bn : BlockedNames) (qName : string) (w : World) : bool :=
  let '(reject, _, val) := PatternMatcher_Eval (patternMatcher bn) (normalize qName) in
  reject && gate_open (gate_of val) (clock w (reads w)).

(** The world once the gate has been consulted: the clock has been read
    when the matched rule carries one. *)
Definition gate_world (bn : BlockedNames) (qName : string) (w : World) : World :=
  let '(reject, _, val) := PatternMatcher_Eval (patternMatcher bn) (normalize qName) in
  if reject then
    match gate_of val with
    | Some _ => tick w
    | None => w
    end
  else w.

(** The state after a rejection. *)
Definition rejected (st : PluginsState) : PluginsState :=
  set_returnCode PluginsReturnCodeReject (set_action PluginsActionReject st).

(** The dynamic type of the client address is the one its protocol
    announces. *)
Definition addr_matches_proto (st : PluginsState) : Prop :=
  match clientAddr st with
  | UDPAddr _ => clientProto st = "udp"
  | TCPAddr _ => clientProto st <> "udp"
  end.

Definition known_format (fmt : string) : Prop := fmt = "tsv" \/ fmt = "ltsv".

(** Either no audit log is configured, or its format is one of the two
    known ones and the client address is well typed. *)
Definition well_configured (bn : BlockedNames) (st : PluginsState) : Prop :=
  logger bn = None \/ (known_format (format bn) /\ addr_matches_proto st).

(** Internet-class CNAME, as the header says. *)
Definition is_inet_cname (rr : RR) : bool :=
  (Class (Header rr) =? ClassINET)%Z && (Rrtype (Header rr) =? TypeCNAME)%Z.

(** Every answer that announces an Internet-class CNAME is one. *)
Definition well_typed_answers (answers : list RR) : Prop :=
  Forall (fun rr => is_inet_cname rr = true -> exists h t, rr = CNAME h t) answers.

(** The response walker in the spec's words: the CNAME targets are
    submitted in order, stopping at the first block. *)
Fixpoint check_each (bn : BlockedNames) (aliasFor : string) (rrs : list RR)
  : M (option error) :=
  match rrs with
  | [] => ret None
  | rr :: rest =>
      target <- as_CNAME rr ;;
      r <- check bn target (Some aliasFor) ;;
      if fst r || bool_decide (snd r <> None) then ret (snd r)
      else check_each bn aliasFor rest
  end.

(** ... over at most [aliasesLimit] records, those that are Internet-class
    CNAMEs; the others are passed over. *)
Definition walk_spec (bn : BlockedNames) (aliasFor : string) (answers : list RR)
  : M (option error) :=
  check_each bn aliasFor (firstn (Z.to_nat aliasesLimit) (List.filter is_inet_cname answers)).

(** The gate [add_rule] hands to [PatternMatcher.Add] for a time-range
    name: the catalog's entry, nothing for the empty or an unknown name. *)
Definition gate_for (ranges : gmap string WeeklyRanges) (timeRangeName : string)
  : option WeeklyRanges :=
  if (0 <? String.length timeRangeName)%nat then ranges !! timeRangeName else None.

(** The spec on the audit format, as it is stated: with an audit log
    configured, [Init] fails on a format that is neither [tsv] nor
    [ltsv] ... *)
Definition unknown_format_fatal_at_init : Prop :=
  forall (proxy : Proxy) (g : option BlockedNames),
    blockNameLogFile proxy <> EmptyString ->
    ~ known_format (blockNameFormat proxy) ->
    init_err (PluginBlockName_Init proxy g) <> None.

(** ... and the format never makes a write fail. *)
Definition format_never_fails_at_write : Prop :=
  forall (proxy : Proxy) (g : option BlockedNames) (bn : BlockedNames)
         (q : string) (alias : option string) (st : PluginsState) (w : World)
         (msg : string),
    init_blockedNames (PluginBlockName_Init proxy g) = Some bn ->
    check bn q alias st w <> Exited msg.

(** The matcher's side of one call of [PatternMatcher.Add], from [pm] to
    [pm'] with the value [val]: a name that no rule of [pm] matched and that
    [pm'] matches is reported by [PatternMatcher.Eval] with that value. *)
Definition reports_given_value (pm pm' : PatternMatcher)
    (val : option WeeklyRanges) : Prop :=
  forall name reason v,
    PatternMatcher_Eval pm' name = (true, reason, v) ->
    fst (fst (PatternMatcher_Eval pm name)) = false ->
    v = Some val.

(** The IP address inside a client address, whatever its dynamic type. *)
Definition addr_ip (a : Addr) : IP :=
  match a with
  | UDPAddr ip => ip
  | TCPAddr ip => ip
  end.

(** The reason as [check] words it: the matcher's, followed on the response
    side by the question the target is an alias for. *)
Definition alias_reason (reason : string) (aliasFor : option string) : string :=
  match aliasFor with
  | Some a => reason ++ " (alias for [" ++ StripTrailingDot a ++ "])"
  | None => reason
  end.

(** The target of a CNAME record; nothing for another record. *)
Definition cname_target (rr : RR) : string :=
  match rr with
  | CNAME _ target => target
  | OtherRR _ => EmptyString
  end.

(** The matcher reports a rule for the name, gate left aside. *)
Definition name_matches (bn : BlockedNames) (qName : string) : bool :=
  fst (fst (PatternMatcher_Eval (patternMatcher bn) (normalize qName))).

(** No rule the matcher can report carries a time gate. *)
Definition ungated (bn : BlockedNames) : Prop :=
  forall name, gate_of (snd (PatternMatcher_Eval (patternMatcher bn) name)) = None.

(** The error an [Add] returned, as the loader logs it. *)
Definition add_error_log (err : option error) : list LogEntry :=
  match err with
  | Some e => [(SevError, e)]
  | None => []
  end.

End Vocabulary.




(** Only bytes that [IsSpace] accepts. *)
Fixpoint all_space (s : string) : bool :=
  match s with
  | EmptyString => true
  | String c r => IsSpace c && all_space r
  end.

(** A line the loader passes over: blank, or a comment. *)
Definition skipped_line (line : string) : bool :=
  (String.length (TrimSpace line) =? 0)%nat || HasPrefix (TrimSpace line) "#".


(** ** An implementation of the collaborators, after the spec

    It instantiates the properties below at concrete inputs. *)

Module SpecHost.

(** Modelled from the spec: the decision slot of the query context, declared
    by the plugin framework outside the sources, is "initially [pass]; set
    to [reject] by the engine". *)
Inductive Decision := Pass | Reject.

(** Modelled from the spec: the weekly ranges are declared outside the
    sources.  Section 4.2: intervals [(start_minute, end_minute)] in minutes
    of the week; "an interval with [start > end] is treated as wrapping".
    The spec leaves the end points open: here the start is inside and the
    end outside. *)
Definition Ranges : Type := list (Z * Z).

Definition minute_of_week (t : Time) : Z :=
  weekday t * 1440 + hour t * 60 + minute t.

Definition in_interval (m : Z) (i : Z * Z) : bool :=
  let '(s, e) := i in
  if (s <=? e)%Z then (s <=? m)%Z && (m <? e)%Z
  else (s <=? m)%Z || (m <? e)%Z.

Definition ranges_match (r : Ranges) (t : Time) : bool :=
  existsb (in_interval (minute_of_week t)) r.

(** Modelled from the spec: the pattern matcher is declared outside the
    sources.  Section 4.1: pattern kinds, classification by syntax,
    label-aligned suffixes, evaluation order Exact, Suffix, Prefix,
    Substring, Pattern, the first-inserted matching rule of a kind wins. *)
Inductive Kind := Exact | Suffix | Prefix | Substring | Pattern.

Definition Kind_eqb (a b : Kind) : bool :=
  match a, b with
  | Exact, Exact | Suffix, Suffix | Prefix, Prefix
  | Substring, Substring | Pattern, Pattern => true
  | _, _ => false
  end.

Record Rule := {
  kind : Kind;
  pattern : string;
  raw_text : string;
  time_gate : option Ranges;
  line_number : Z
}.

(** The rules in the order of their insertion. *)
Definition Matcher : Type := list Rule.

Definition is_wildcard (c : ascii) : bool := Ascii.eqb c "*" || Ascii.eqb c "?".

Fixpoint has_wildcard (s : string) : bool :=
  match s with
  | EmptyString => false
  | String c r => is_wildcard c || has_wildcard r
  end.

Definition ends_with (p s : string) : bool :=
  (String.length p <=? String.length s)%nat
  && String.eqb (String.substring (String.length s - String.length p) (String.length p) s) p.

Definition drop_first (s : string) : string :=
  match s with
  | EmptyString => EmptyString
  | String _ r => r
  end.

Definition drop_last (s : string) : string :=
  String.substring 0 (String.length s - 1) s.

Definition contains (p s : string) : bool :=
  match String.index 0 p s with
  | Some _ => true
  | None => false
  end.

(** Shell-style wildcards: [*] stands for any run of bytes, [?] for one. *)
Fixpoint glob (p : list ascii) (s : list ascii) : bool :=
  match p with
  | [] => match s with [] => true | _ => false end
  | c :: p' =>
      if Ascii.eqb c "*" then
        (fix star (s : list ascii) : bool :=
           glob p' s || match s with [] => false | _ :: s' => star s' end) s
      else
        match s with
        | [] => false
        | d :: s' => (Ascii.eqb c "?" || Ascii.eqb c d) && glob p' s'
        end
  end.

(** The table of section 4.1. *)
Definition classify (text : string) : Kind * string :=
  if String.prefix "=" text then (Exact, drop_first text)
  else
    let lead := String.prefix "*" text in
    let rest := if lead then drop_first text else text in
    let trail := ends_with "*" rest in
    let name := if trail then drop_last rest else rest in
    if has_wildcard name then (Pattern, text)
    else if lead && trail then (Substring, name)
    else if trail then (Prefix, name)
    else (Suffix, name).

(** [add]: the pattern is normalized, then classified.  The spec leaves
    open which patterns are malformed; here those with an empty name are. *)
Definition Add (m : Matcher) (text : string) (gate : option Ranges) (line : Z)
  : Matcher * option error :=
  let '(k, name) := classify (ToLower (StripTrailingDot text)) in
  if (String.length name =? 0)%nat
  then (m, Some ("Syntax error in block rules at line " ++ fmt_d line))
  else (m ++ [{| kind := k; pattern := name; raw_text := text;
                 time_gate := gate; line_number := line |}], None)%list.

Definition matches (r : Rule) (name : string) : bool :=
  match kind r with
  | Exact => String.eqb name (pattern r)
  | Suffix => String.eqb name (pattern r) || ends_with ("." ++ pattern r) name
  | Prefix => String.prefix (pattern r) name
  | Substring => contains (pattern r) name
  | Pattern => glob (String.list_ascii_of_string (pattern r))
              (String.list_ascii_of_string name)
  end.

Definition first_of (k : Kind) (m : Matcher) (name : string) : option Rule :=
  List.find (fun r => Kind_eqb (kind r) k && matches r name) m.

Fixpoint first_hit (ks : list Kind) (m : Matcher) (name : string) : option Rule :=
  match ks with
  | [] => None
  | k :: ks' =>
      match first_of k m name with
      | Some r => Some r
      | None => first_hit ks' m name
      end
  end.

(** [eval]: the reason is the rule's original text; the value holds the
    gate given to [add]. *)
Definition Eval (m : Matcher) (name : string)
  : bool * string * option (option Ranges) :=
  match first_hit [Exact; Suffix; Prefix; Substring; Pattern] m name with
  | Some r => (true, raw_text r, Some (time_gate r))
  | None => (false, EmptyString, None)
  end.

(** Modelled from the spec: [StringQuote] is declared outside the sources.
    Section 4.6: "wrapped in quotes with embedded quote and backslash
    backslash-escaped and control characters escaped as [\xNN]". *)
Definition hex_digit (n : N) : ascii :=
  if (n <? 10)%N then ascii_of_N (48 + n) else ascii_of_N (87 + n).

Definition quote_byte (c : ascii) : string :=
  let n := N_of_ascii c in
  if Ascii.eqb c "034" || Ascii.eqb c "\" then String "\" (String c EmptyString)
  else if (n <? 32)%N || (n =? 127)%N then
    String "\" (String "x" (String (hex_digit (n / 16)) (String (hex_digit (n mod 16)) EmptyString)))
  else String c EmptyString.

Fixpoint quote_bytes (s : string) : string :=
  match s with
  | EmptyString => EmptyString
  | String c r => quote_byte c ++ quote_bytes r
  end.

Definition Quote (s : string) : string :=
  String "034" (quote_bytes s ++ String "034" EmptyString).

(** [net.IP] as its bytes; [String()] in dotted decimal. *)
Definition ip_string (ip : list Z) : string :=
  match ip with
  | [] => "<nil>"
  | b :: bs => fold_left (fun acc x => acc ++ "." ++ fmt_d x) bs (fmt_d b)
  end.

(** The collaborators over a file system [fs]. *)
Definition host (fs : string -> string + error) : Host :=
  {| PluginsAction := Decision;
     PluginsActionReject := Reject;
     PluginsReturnCode := Decision;
     PluginsReturnCodeReject := Reject;
     OtherFields := unit;
     IP := list Z;
     IP_String := ip_string;
     WeeklyRanges := Ranges;
     WeeklyRanges_Match := ranges_match;
     PatternMatcher := Matcher;
     NewPatternPatcher := [];
     PatternMatcher_Add := Add;
     PatternMatcher_Eval := Eval;
     StringQuote := Quote;
     ReadTextFile := fs |}.

End SpecHost.

(** ** Concrete inputs *)

Module Examples.
Import SpecHost.

Definition rules : string :=
  "# blocked names
ads.example
=only.example
social @work-hours
game @nosuch
a@b@c
=
tracker.net
".

Definition fs (path : string) : string + error :=
  if String.eqb path "blocked-names.txt" then inl rules
  else inr "open: no such file or directory".

Definition spec_host : Host := host fs.

(** Monday to Friday, 09:00 to 17:00. *)
Definition work_hours : Ranges :=
  [(1980, 2460); (3420, 3900); (4860, 5340); (6300, 6780); (7740, 8220)]%Z.

Definition catalog : gmap string (@WeeklyRanges spec_host) :=
  {[ "work-hours" := work_hours ]}.

Definition no_rules : @PatternMatcher spec_host := [].

Definition proxy_with (fmt : string) : @Proxy spec_host :=
  @Build_Proxy spec_host "blocked-names.txt" "blocked.log" fmt 10 7 1 catalog.

Definition proxy_xml : @Proxy spec_host := proxy_with "xml".

Definition log_file : Logger :=
  {| LocalTime := true; MaxSize := 10; MaxAge := 7; MaxBackups := 1;
     Filename := "blocked.log"; Compress := true |}.

(** The rules of [rules], audited in the format [fmt]. *)
Definition blocked (fmt : string) : @BlockedNames spec_host :=
  @Build_BlockedNames spec_host catalog
    (fst (@load_lines spec_host catalog 0 (Split "010" rules) no_rules))
    (Some log_file) fmt.

Definition client (sess : gmap string iface) : @PluginsState spec_host :=
  @Build_PluginsState spec_host Pass Pass "udp"
    (@UDPAddr spec_host [192; 0; 2; 5]%Z) sess tt.

Definition st0 : @PluginsState spec_host := client ∅.

Definition st_whitelisted : @PluginsState spec_host :=
  client {[ "whitelisted" := IBool true ]}.

Definition wednesday_noon : Time :=
  {| year := 2024; month := 5; day := 1; hour := 12; minute := 0; second := 7;
     weekday := 3; unix := 1714564807 |}.

Definition saturday_noon : Time :=
  {| year := 2024; month := 5; day := 4; hour := 12; minute := 0; second := 7;
     weekday := 6; unix := 1714824007 |}.

Definition world_at (t : Time) : World :=
  {| clock := fun _ => t; reads := 0; written := [] |}.

(** The audit line of a rejection on Wednesday at noon, in the format
    [tsv]. *)
Definition tsv_line (qName reason : string) : string :=
  "[2024-05-01 12:00:07]" ++ tab ++ "192.0.2.5" ++ tab ++ Quote qName ++ tab
  ++ Quote reason ++ newline.

Definition question (name : string) : dnsQuestion :=
  {| Name := name; Qtype := 1; Qclass := ClassINET |}.

Definition query (name : string) : Msg :=
  {| Question := [question name]; Answer := [] |}.

Definition cname (target : string) : RR :=
  CNAME {| Rrtype := TypeCNAME; Class := ClassINET |} target.

Definition a_record : RR := OtherRR {| Rrtype := 1; Class := ClassINET |}.

(** The response of scenario S6: [x] is an alias of [a.tracker.net], itself
    an alias of [b]. *)
Definition cname_chain : Msg :=
  {| Question := [question "x."];
     Answer := [cname "a.tracker.net."; cname "b."; a_record] |}.

Definition harmless (n : nat) : list RR := repeat (cname "ok.example.") n.

(** Eight harmless aliases, with address records in between, then a
    blocked one. *)
Definition ninth_is_blocked : Msg :=
  {| Question := [question "x."];
     Answer := a_record :: harmless 4 ++ a_record :: harmless 4
               ++ [a_record; cname "ads.example."] |}.

(** Seven harmless aliases, with address records in between, then a
    blocked one. *)
Definition eighth_is_blocked : Msg :=
  {| Question := [question "x."];
     Answer := a_record :: harmless 4 ++ a_record :: harmless 3
               ++ [a_record; cname "ads.example."; cname "only.example."] |}.

Definition two_questions : Msg :=
  {| Question := [question "a.example."; question "ads.example."];
     Answer := [cname "x.ads.example."] |}.

(** The catalog's [work-hours], as the weekly ranges of the host. *)
Definition work_gate : @WeeklyRanges spec_host := work_hours.

(** A response with address records only, to a question that is blocked. *)
Definition a_records_only : Msg :=
  {| Question := [question "ads.example."]; Answer := [a_record; a_record] |}.

(** Two rules without time range. *)
Definition plain_rules : @PatternMatcher spec_host :=
  fst (Add (fst (Add [] "ads.example" None 1)) "=only.example" None 2).

Definition blocked_plain : @BlockedNames spec_host :=
  @Build_BlockedNames spec_host catalog plain_rules (Some log_file) "ltsv".

Definition ltsv_line (qName reason : string) : string :=
  "time:1714564807" ++ tab ++ "host:192.0.2.5" ++ tab ++ "qname:" ++ Quote qName
  ++ tab ++ "message:" ++ Quote reason ++ newline.

(** No audit log file. *)
Definition proxy_no_log : @Proxy spec_host :=
  @Build_Proxy spec_host "blocked-names.txt" EmptyString "tsv" 10 7 1 catalog.

(** A rule file without rule. *)
Definition comments : string :=
  "# nothing is blocked

   # yet
".

Definition fs_comments (path : string) : string + error := inl comments.

Definition comments_host : Host := host fs_comments.

Definition proxy_comments : @Proxy comments_host :=
  @Build_Proxy comments_host "blocked-names.txt" EmptyString "tsv" 10 7 1 ∅.

Definition carriage_return : string := String "013" EmptyString.

(** The second alias of the answer is blocked, the first is not. *)
Definition second_alias_blocked : Msg :=
  {| Question := [question "x."];
     Answer := [cname "ok.example."; a_record; cname "sub.ads.example."] |}.

(** The rule of line 5 of [rules] alone. *)
Definition blocked_game : @BlockedNames spec_host :=
  @Build_BlockedNames spec_host catalog
    (fst (@load_line spec_host catalog 4 "game @nosuch" no_rules))
    (Some log_file) "tsv".

(** An exact rule gated by the working hours, then a suffix rule for the
    same name whose time range is unknown. *)
Definition exact_then_suffix : list string := ["=game @work-hours"; "game @nosuch"].

Definition blocked_exact_then_suffix : @BlockedNames spec_host :=
  @Build_BlockedNames spec_host catalog
    (fst (@load_lines spec_host catalog 0 exact_then_suffix no_rules))
    (Some log_file) "tsv".

Definition game_exact_gated : Rule :=
  {| kind := Exact; pattern := "game"; raw_text := "=game";
     time_gate := Some work_hours; line_number := 1 |}.

Definition game_suffix_ungated : Rule :=
  {| kind := Suffix; pattern := "game"; raw_text := "game";
     time_gate := None; line_number := 2 |}.

End Examples.

(** ** Properties *)

Ltac run_M :=
  repeat (unfold bind, ret, get_state, modify_state, Fatalf, panic, time_Now,
            logger_Write, Match in *; simpl in * ).

Section CheckProperties.
Context `{H : Host}.

Lemma written_gate_world (bn : BlockedNames) (q : string) (w : World) :
  written (gate_world bn q w) = written w.
Proof.
  unfold gate_world.
  destruct (PatternMatcher_Eval _ _) as [[rej reason] val].
  destruct rej; [destruct (gate_of val)|]; reflexivity.
Qed.

(** The client address is rendered without panic when its dynamic type is
    the announced one. *)
Lemma clientIP_returns (st : PluginsState) (w : World) :
  addr_matches_proto st -> exists s, clientIP st st w = Returned s st w.
Proof.
  unfold addr_matches_proto, clientIP. intros Hm.
  destruct (clientAddr st) as [ip|ip].
  - rewrite Hm. simpl. eauto.
  - destruct (String.eqb_spec (clientProto st) "udp") as [E|E]; [contradiction|].
    eauto.
Qed.

(** A known format yields a line and reads the clock once. *)
Lemma format_line_returns (fmt ip q reason : string) (st : PluginsState) (w : World) :
  known_format fmt ->
  exists line, format_line fmt ip q reason st w = Returned line st (tick w).
Proof.
  intros [-> | ->]; unfold format_line; simpl; run_M; eauto.
Qed.

(** An unknown format reaches [dlog.Fatalf]. *)
Lemma format_line_exits (fmt ip q reason : string) (st : PluginsState) (w : World) :
  ~ known_format fmt ->
  format_line fmt ip q reason st w = Exited ("Unexpected log format: [" ++ fmt ++ "]").
Proof.
  intros Hk. unfold format_line.
  destruct (String.eqb_spec fmt "tsv") as [E|E]; [destruct Hk; left; exact E|].
  destruct (String.eqb_spec fmt "ltsv") as [E'|E']; [destruct Hk; right; exact E'|].
  reflexivity.
Qed.

(** [check] when the decision is not to reject. *)
Lemma check_pass (bn : BlockedNames) (q : string) (alias : option string)
    (st : PluginsState) (w : World) :
  should_reject bn q w = false ->
  check bn q alias st w = Returned (false, None) st (gate_world bn q w).
Proof.
  unfold should_reject, gate_world, check, normalize.
  destruct (PatternMatcher_Eval _ _) as [[rej reason] val].
  destruct rej; simpl; [|reflexivity].
  unfold gate_of. destruct val as [[wr|]|]; simpl; try discriminate.
  intros Hg. run_M. rewrite Hg. reflexivity.
Qed.

(** [check] when the decision is to reject: up to the audit, the state is
    the rejected one and the world is the one after the gate. *)
Lemma check_reject (bn : BlockedNames) (q : string) (alias : option string)
    (st : PluginsState) (w : World) :
  should_reject bn q w = true ->
  exists reason,
    check bn q alias st w =
    match logger bn with
    | Some lg =>
        (clientIPStr <- clientIP (rejected st) ;;
         line <- format_line (format bn) clientIPStr (normalize q) reason ;;
         logger_Write lg line ;;; ret (true, None)) (rejected st) (gate_world bn q w)
    | None => Returned (true, None) (rejected st) (gate_world bn q w)
    end.
Proof.
  unfold should_reject, gate_world, check, normalize.
  destruct (PatternMatcher_Eval _ _) as [[rej reason] val].
  destruct rej; simpl; [|discriminate].
  intros Hg.
  exists (match alias with
          | Some a => reason ++ " (alias for [" ++ StripTrailingDot a ++ "])"
          | None => reason
          end).
  unfold gate_of in *. destruct val as [[wr|]|]; simpl in *.
  - run_M. rewrite Hg. simpl. destruct (logger bn); reflexivity.
  - run_M. destruct (logger bn); reflexivity.
  - run_M. destruct (logger bn); reflexivity.
Qed.

Lemma addr_matches_proto_rejected (st : PluginsState) :
  addr_matches_proto (rejected st) <-> addr_matches_proto st.
Proof. unfold addr_matches_proto, rejected. simpl. reflexivity. Qed.

(** Without the announced dynamic type, rendering the address panics. *)
Lemma clientIP_panics (st : PluginsState) (w : World) :
  ~ addr_matches_proto st -> exists msg, clientIP st st w = Panicked msg.
Proof.
  unfold addr_matches_proto, clientIP. intros Hm.
  destruct (clientAddr st) as [ip|ip];
    destruct (String.eqb_spec (clientProto st) "udp") as [E|E];
    try contradiction; eauto.
Qed.

Lemma known_format_dec (fmt : string) : {known_format fmt} + {~ known_format fmt}.
Proof.
  unfold known_format.
  destruct (decide (fmt = "tsv")); [left; auto|].
  destruct (decide (fmt = "ltsv")); [left; auto|].
  right; intros [|]; contradiction.
Qed.

Lemma addr_matches_proto_dec (st : PluginsState) :
  {addr_matches_proto st} + {~ addr_matches_proto st}.
Proof.
  unfold addr_matches_proto. destruct (clientAddr st).
  - apply (decide (clientProto st = "udp")).
  - destruct (decide (clientProto st = "udp")); [right|left]; auto.
Qed.

(** Every run of [check] is one of four: pass; reject and return; reject
    and exit on an unknown audit format; reject and panic on a client
    address of the wrong dynamic type. *)
Lemma check_cases (bn : BlockedNames) (q : string) (alias : option string)
    (st : PluginsState) (w : World) :
  (should_reject bn q w = false /\
   check bn q alias st w = Returned (false, None) st (gate_world bn q w))
  \/
  (should_reject bn q w = true /\
   ((logger bn = None /\
     check bn q alias st w = Returned (true, None) (rejected st) (gate_world bn q w))
    \/
    (exists lg line, logger bn = Some lg /\
       known_format (format bn) /\ addr_matches_proto st /\
       check bn q alias st w =
       Returned (true, None) (rejected st)
         (append_line line (tick (gate_world bn q w))))
    \/
    (exists lg, logger bn = Some lg /\
       ~ known_format (format bn) /\ addr_matches_proto st /\
       check bn q alias st w = Exited ("Unexpected log format: [" ++ format bn ++ "]"))
    \/
    (exists lg msg, logger bn = Some lg /\ ~ addr_matches_proto st /\
       check bn q alias st w = Panicked msg))).
Proof.
  destruct (should_reject bn q w) eqn:Hs.
  - right. split; [reflexivity|].
    destruct (check_reject bn q alias st w Hs) as [reason ->].
    destruct (logger bn) as [lg|]; [right|left; auto].
    destruct (addr_matches_proto_dec st) as [Ha|Ha].
    + destruct (clientIP_returns (rejected st) (gate_world bn q w)) as [ip Hip];
        [apply addr_matches_proto_rejected; exact Ha|].
      destruct (known_format_dec (format bn)) as [Hf|Hf].
      * left. exists lg.
        destruct (format_line_returns (format bn) ip (normalize q) reason
                    (rejected st) (gate_world bn q w) Hf) as [line Hl].
        exists line. repeat split; auto.
        unfold bind at 1. rewrite Hip. unfold bind at 1. rewrite Hl. reflexivity.
      * right; left. exists lg. repeat split; auto.
        unfold bind at 1. rewrite Hip. unfold bind at 1.
        rewrite format_line_exits by exact Hf. reflexivity.
    + right; right. exists lg.
      destruct (clientIP_panics (rejected st) (gate_world bn q w)) as [msg Hp];
        [rewrite addr_matches_proto_rejected; exact Ha|].
      exists msg. repeat split; auto.
      unfold bind at 1. rewrite Hp. reflexivity.
  - left. split; [reflexivity|]. apply check_pass. exact Hs.
Qed.

End CheckProperties.

Section CheckTheorems.
Context `{H : Host}.

(** What a run of [check] that returns has done. *)
Lemma check_returned (bn : BlockedNames) (q : string) (alias : option string)
    (st st' : PluginsState) (w w' : World) (b : bool) (e : option error) :
  check bn q alias st w = Returned (b, e) st' w' ->
  e = None /\ b = should_reject bn q w /\
  (b = false -> st' = st /\ w' = gate_world bn q w) /\
  (b = true -> st' = rejected st).
Proof.
  intros Hc.
  destruct (check_cases bn q alias st w)
    as [[Hs E] | [Hs [[_ E] | [(lg & line & _ & _ & _ & E)
                     | [(lg & _ & _ & _ & E) | (lg & msg & _ & _ & E)]]]]];
    rewrite E in Hc; try discriminate;
    injection Hc as <- <- <- <-; rewrite Hs;
    repeat split; auto; discriminate.
Qed.

(** A well-configured [check] returns. *)
Lemma check_total (bn : BlockedNames) (q : string) (alias : option string)
    (st : PluginsState) (w : World) :
  well_configured bn st ->
  exists st' w',
    check bn q alias st w = Returned (should_reject bn q w, None) st' w'.
Proof.
  intros Hwc.
  destruct (check_cases bn q alias st w)
    as [[Hs E] | [Hs [[_ E] | [(lg & line & _ & _ & _ & E)
                     | [(lg & Hl & Hf & _ & E) | (lg & msg & Hl & Ha & E)]]]]];
    rewrite Hs; eauto.
  - destruct Hwc as [Hn | [Hk _]]; [congruence | contradiction].
  - destruct Hwc as [Hn | [_ Hm]]; [congruence | contradiction].
Qed.

(** C1.  [BlockedNames.check] returns [true] if and only if the pattern
    matcher reports a match for the normalized name and the time gate of the
    matched rule, when it carries one, matches at the instant the clock is
    read.  When the decision is negative (no match, or a gate that does not
    match now) [check] returns [false] with the plugins state unchanged and
    nothing written to the audit log.  When it is positive, a
    well-configured [check] returns [true]. *)
Theorem check_rejects_iff_match_and_gate (bn : BlockedNames) (q : string)
    (alias : option string) (st : PluginsState) (w : World) :
  (forall b e st' w',
      check bn q alias st w = Returned (b, e) st' w' ->
      (b = true <-> should_reject bn q w = true))
  /\ (should_reject bn q w = false ->
      exists w', check bn q alias st w = Returned (false, None) st w'
                 /\ written w' = written w)
  /\ (should_reject bn q w = true -> well_configured bn st ->
      exists w', check bn q alias st w = Returned (true, None) (rejected st) w').
Proof.
  split; [|split].
  - intros b e st' w' Hc.
    destruct (check_returned _ _ _ _ _ _ _ _ _ Hc) as (_ & -> & _). reflexivity.
  - intros Hs. exists (gate_world bn q w). split.
    + apply check_pass; exact Hs.
    + apply written_gate_world.
  - intros Hs Hwc.
    destruct (check_total bn q alias st w Hwc) as (st' & w' & Hc).
    rewrite Hs in Hc.
    destruct (check_returned _ _ _ _ _ _ _ _ _ Hc) as (_ & _ & _ & Hst).
    rewrite (Hst eq_refl) in Hc. eauto.
Qed.

(** C10.  Whenever [check] returns [true] the plugins state is the incoming
    one with [action] set to [PluginsActionReject] and [returnCode] set to
    [PluginsReturnCodeReject]; whenever it returns [false] the plugins state
    is the incoming one, untouched, and nothing has been written to the
    audit log.  A well-configured [check] does return. *)
Theorem check_true_sets_reject_false_frames (bn : BlockedNames) (q : string)
    (alias : option string) (st : PluginsState) (w : World) :
  (forall b e st' w',
      check bn q alias st w = Returned (b, e) st' w' ->
      (b = true ->
         st' = set_returnCode PluginsReturnCodeReject
                 (set_action PluginsActionReject st)
         /\ action st' = PluginsActionReject
         /\ returnCode st' = PluginsReturnCodeReject)
      /\ (b = false -> st' = st /\ written w' = written w))
  /\ (well_configured bn st ->
      exists b st' w', check bn q alias st w = Returned (b, None) st' w').
Proof.
  split.
  - intros b e st' w' Hc.
    destruct (check_returned _ _ _ _ _ _ _ _ _ Hc) as (_ & _ & Hf & Ht).
    split.
    + intros Hb. rewrite (Ht Hb). repeat split.
    + intros Hb. destruct (Hf Hb) as [-> ->]. split; [reflexivity|].
      apply written_gate_world.
  - intros Hwc. destruct (check_total bn q alias st w Hwc) as (st' & w' & Hc).
    eauto.
Qed.

End CheckTheorems.

Section EvalProperties.
Context `{H : Host}.

Lemma bind_ext {A B} (m : M A) (k k' : A -> M B) (st : PluginsState) (w : World) :
  (forall a st' w', k a st' w' = k' a st' w') -> bind m k st w = bind m k' st w.
Proof. intros Hk. unfold bind. destruct (m st w); auto. Qed.

Lemma negb_is_inet_cname (rr : RR) :
  negb (Class (Header rr) =? ClassINET)%Z || negb (Rrtype (Header rr) =? TypeCNAME)%Z
  = negb (is_inet_cname rr).
Proof. unfold is_inet_cname. rewrite negb_andb. reflexivity. Qed.

(** The loop with a positive budget [S n] is the walk of the spec over the
    first [S n] Internet-class CNAMEs. *)
Lemma walk_answers_check_each (bn : BlockedNames) (aliasFor : string)
    (answers : list RR) :
  forall (n : nat) (st : PluginsState) (w : World),
    walk_answers bn aliasFor (Z.of_nat (S n)) answers st w =
    check_each bn aliasFor (firstn (S n) (List.filter is_inet_cname answers)) st w.
Proof.
  induction answers as [|rr rest IH]; intros n st w.
  - reflexivity.
  - cbn [walk_answers List.filter]. rewrite negb_is_inet_cname.
    destruct (is_inet_cname rr); cbn [negb].
    + cbn [firstn check_each]. apply bind_ext. intros target st1 w1.
      apply bind_ext. intros r st2 w2.
      destruct (fst r || bool_decide (snd r <> None)); [reflexivity|].
      destruct n as [|n].
      * simpl. reflexivity.
      * replace (Z.of_nat (S (S n)) - 1)%Z with (Z.of_nat (S n)) by lia.
        replace (Z.of_nat (S n) =? 0)%Z with false by (symmetry; apply Z.eqb_neq; lia).
        apply IH.
    + apply IH.
Qed.

(** The loop never returns an error. *)
Lemma walk_answers_no_error (bn : BlockedNames) (aliasFor : string)
    (answers : list RR) :
  forall (n : Z) (st st' : PluginsState) (w w' : World) (e : option error),
    walk_answers bn aliasFor n answers st w = Returned e st' w' -> e = None.
Proof.
  induction answers as [|rr rest IH]; intros n st st' w w' e.
  - cbn. intros [= <- _ _]. reflexivity.
  - cbn [walk_answers].
    destruct (negb _ || negb _); [apply IH|].
    unfold bind at 1. destruct (as_CNAME rr st w) as [target st1 w1| |]; try discriminate.
    unfold bind at 1.
    destruct (check bn target (Some aliasFor) st1 w1) as [[b e1] st2 w2| |] eqn:Hc;
      try discriminate.
    destruct (check_returned _ _ _ _ _ _ _ _ _ Hc) as (-> & _).
    cbn [fst snd].
    destruct (b || _).
    + unfold ret. intros [= <- _ _]. reflexivity.
    + destruct (_ =? 0)%Z; [unfold ret; intros [= <- _ _]; reflexivity | apply IH].
Qed.

(** A well-configured loop over well-typed answers returns. *)
Lemma walk_answers_total (bn : BlockedNames) (aliasFor : string)
    (answers : list RR) :
  well_typed_answers answers ->
  forall (n : Z) (st : PluginsState) (w : World),
    well_configured bn st ->
    exists st' w', walk_answers bn aliasFor n answers st w = Returned None st' w'.
Proof.
  induction 1 as [|rr rest Hrr _ IH]; intros n st w Hwc.
  - cbn. unfold ret. eauto.
  - cbn [walk_answers]. rewrite negb_is_inet_cname.
    destruct (is_inet_cname rr) eqn:Hi; cbn [negb]; [|apply IH; exact Hwc].
    destruct (Hrr eq_refl) as (h & t & ->). cbn [as_CNAME].
    unfold bind at 1. unfold ret at 1. unfold bind at 1.
    destruct (check_total bn t (Some aliasFor) st w Hwc) as (st1 & w1 & Hc).
    rewrite Hc. cbn [fst snd].
    destruct (check_returned _ _ _ _ _ _ _ _ _ Hc) as (_ & _ & Hf & _).
    destruct (should_reject bn t w).
    + cbn. unfold ret. eauto.
    + destruct (Hf eq_refl) as [-> _].
      rewrite bool_decide_eq_false_2 by (intros E; apply E; reflexivity).
      cbn [orb]. destruct (_ =? 0)%Z; [unfold ret; eauto | apply IH; exact Hwc].
Qed.

(** The two guards shared by both [Eval]s. *)
Lemma PluginBlockName_Eval_unfold (g : option BlockedNames) (msg : Msg)
    (st : PluginsState) (w : World) :
  PluginBlockName_Eval g msg st w =
  match g with
  | None => Returned None st w
  | Some bn =>
      if iface_is_nil (session_get st "whitelisted") then
        match Question msg with
        | [q] => (r <- check bn (Name q) None ;; ret (snd r)) st w
        | _ => Returned None st w
        end
      else Returned None st w
  end.
Proof.
  unfold PluginBlockName_Eval, bind at 1, get_state.
  destruct g; [|reflexivity].
  destruct (iface_is_nil _); [|reflexivity].
  destruct (Question msg) as [|q [|]]; reflexivity.
Qed.

Lemma PluginBlockNameResponse_Eval_unfold (g : option BlockedNames) (msg : Msg)
    (st : PluginsState) (w : World) :
  PluginBlockNameResponse_Eval g msg st w =
  match g with
  | None => Returned None st w
  | Some bn =>
      if iface_is_nil (session_get st "whitelisted") then
        match Question msg with
        | [q] => walk_answers bn (Name q) aliasesLimit (Answer msg) st w
        | _ => Returned None st w
        end
      else Returned None st w
  end.
Proof.
  unfold PluginBlockNameResponse_Eval, bind at 1, get_state.
  destruct g; [|reflexivity].
  destruct (iface_is_nil _); [|reflexivity].
  destruct (Question msg) as [|q [|]]; reflexivity.
Qed.

End EvalProperties.

Section EvalTheorems.
Context `{H : Host}.

(** C2.  The response-side [Eval] is the walk of the spec: it submits to
    [check], in order, the targets of the first [aliasesLimit] = 8 answer
    records that are Internet-class CNAMEs and stops at the first one that is
    blocked; the records that are not Internet-class CNAMEs are filtered out
    before the 8 are counted, so they take nothing from the budget. *)
Theorem response_eval_walks_at_most_8_cnames (g : option BlockedNames) (msg : Msg)
    (st : PluginsState) (w : World) :
  PluginBlockNameResponse_Eval g msg st w =
  match g with
  | None => Returned None st w
  | Some bn =>
      if iface_is_nil (session_get st "whitelisted") then
        match Question msg with
        | [q] => check_each bn (Name q)
                   (firstn 8 (List.filter is_inet_cname (Answer msg))) st w
        | _ => Returned None st w
        end
      else Returned None st w
  end
  /\ (List.length (firstn 8 (List.filter is_inet_cname (Answer msg))) <= 8)%nat
  /\ (forall bn aliasFor,
        walk_answers bn aliasFor aliasesLimit (Answer msg) st w
        = walk_spec bn aliasFor (Answer msg) st w).
Proof.
  split; [|split].
  - rewrite PluginBlockNameResponse_Eval_unfold.
    destruct g as [bn|]; [|reflexivity].
    destruct (iface_is_nil _); [|reflexivity].
    destruct (Question msg) as [|q [|]]; try reflexivity.
    apply (walk_answers_check_each bn (Name q) (Answer msg) 7).
  - apply firstn_le_length.
  - intros bn aliasFor.
    apply (walk_answers_check_each bn aliasFor (Answer msg) 7).
Qed.

(** C3.  When the session data holds a non-nil value under ["whitelisted"],
    both [Eval]s return the nil error at once and leave the plugins state and
    the world as they were, whatever the rules and the message. *)
Theorem whitelisted_session_untouched (g : option BlockedNames) (msg : Msg)
    (st : PluginsState) (w : World) (v : iface) :
  sessionData st !! "whitelisted" = Some v -> v <> INil ->
  PluginBlockName_Eval g msg st w = Returned None st w
  /\ PluginBlockNameResponse_Eval g msg st w = Returned None st w.
Proof.
  intros Hl Hv.
  assert (Hn : iface_is_nil (session_get st "whitelisted") = false).
  { unfold session_get. rewrite Hl. destruct v; [contradiction| |]; reflexivity. }
  rewrite PluginBlockName_Eval_unfold, PluginBlockNameResponse_Eval_unfold, Hn.
  destruct g; auto.
Qed.

(** C4.  When the question section of the message does not hold exactly one
    question, both [Eval]s return the nil error and leave the plugins state
    and the world as they were. *)
Theorem not_one_question_is_noop (g : option BlockedNames) (msg : Msg)
    (st : PluginsState) (w : World) :
  List.length (Question msg) <> 1%nat ->
  PluginBlockName_Eval g msg st w = Returned None st w
  /\ PluginBlockNameResponse_Eval g msg st w = Returned None st w.
Proof.
  intros Hq.
  rewrite PluginBlockName_Eval_unfold, PluginBlockNameResponse_Eval_unfold.
  destruct g; [|auto].
  destruct (iface_is_nil _); [|auto].
  destruct (Question msg) as [|q [|]]; auto. contradiction Hq. reflexivity.
Qed.

(** C9.  No run of [check] returns an error: the branch that returns
    "Log file not initialized" is dead.  Neither does a run of either
    [Eval].  When the configuration is well formed (no audit log, or a known
    format and a client address of the announced type) and the answers are
    well typed, all three do return, with the nil error. *)
Theorem log_not_initialized_is_unreachable (bn : BlockedNames)
    (g : option BlockedNames) (msg : Msg) (q : string) (alias : option string)
    (st : PluginsState) (w : World) :
  (forall b e st' w', check bn q alias st w = Returned (b, e) st' w' -> e = None)
  /\ (forall e st' w', PluginBlockName_Eval g msg st w = Returned e st' w' -> e = None)
  /\ (forall e st' w',
        PluginBlockNameResponse_Eval g msg st w = Returned e st' w' -> e = None)
  /\ (well_configured bn st ->
      exists b st' w', check bn q alias st w = Returned (b, None) st' w')
  /\ ((forall bn', g = Some bn' -> well_configured bn' st) ->
      exists st' w', PluginBlockName_Eval g msg st w = Returned None st' w')
  /\ ((forall bn', g = Some bn' -> well_configured bn' st) ->
      well_typed_answers (Answer msg) ->
      exists st' w', PluginBlockNameResponse_Eval g msg st w = Returned None st' w').
Proof.
  repeat split.
  - intros b e st' w' Hc.
    destruct (check_returned _ _ _ _ _ _ _ _ _ Hc) as (-> & _). reflexivity.
  - intros e st' w'. rewrite PluginBlockName_Eval_unfold.
    destruct g as [bn'|]; [|intros [= <- _ _]; reflexivity].
    destruct (iface_is_nil _); [|intros [= <- _ _]; reflexivity].
    destruct (Question msg) as [|q0 [|]]; try (intros [= <- _ _]; reflexivity).
    unfold bind, ret.
    destruct (check bn' (Name q0) None st w) as [[b e1] st1 w1| |] eqn:Hc;
      try discriminate.
    destruct (check_returned _ _ _ _ _ _ _ _ _ Hc) as (-> & _).
    intros [= <- _ _]. reflexivity.
  - intros e st' w'. rewrite PluginBlockNameResponse_Eval_unfold.
    destruct g as [bn'|]; [|intros [= <- _ _]; reflexivity].
    destruct (iface_is_nil _); [|intros [= <- _ _]; reflexivity].
    destruct (Question msg) as [|q0 [|]]; try (intros [= <- _ _]; reflexivity).
    apply walk_answers_no_error.
  - intros Hwc. destruct (check_total bn q alias st w Hwc) as (st' & w' & Hc). eauto.
  - intros Hwc. rewrite PluginBlockName_Eval_unfold.
    destruct g as [bn'|]; [|eauto].
    destruct (iface_is_nil _); [|eauto].
    destruct (Question msg) as [|q0 [|]]; eauto.
    destruct (check_total bn' (Name q0) None st w (Hwc bn' eq_refl)) as (st' & w' & Hc).
    unfold bind, ret. rewrite Hc. cbn. eauto.
  - intros Hwc Hwt. rewrite PluginBlockNameResponse_Eval_unfold.
    destruct g as [bn'|]; [|eauto].
    destruct (iface_is_nil _); [|eauto].
    destruct (Question msg) as [|q0 [|]]; eauto.
    apply walk_answers_total; auto.
Qed.

End EvalTheorems.

Section Normalization.
Context `{H : Host}.













End Normalization.

Section LoaderProperties.
Context `{H : Host}.

Lemma Split_length (sep : ascii) (s : string) :
  List.length (Split sep s) = S (Count sep s).
Proof.
  induction s as [|c r IH]; [reflexivity|].
  cbn [Split Count]. destruct (Ascii.eqb c sep); cbn [List.length].
  - rewrite IH. reflexivity.
  - destruct (Split sep r) as [|h t]; [discriminate|]. exact IH.
Qed.

Lemma add_rule_spec (ranges : gmap string WeeklyRanges) (lineNo : Z)
    (line name : string) (pm : PatternMatcher) :
  add_rule ranges lineNo line name pm =
  let '(pm', err) := PatternMatcher_Add pm line (gate_for ranges name) (lineNo + 1) in
  (pm',
   List.app
     (if (0 <? String.length name)%nat then
        match ranges !! name with
        | None => [(SevError, "Time range [" ++ name ++ "] not found at line "
                              ++ fmt_d (1 + lineNo))]
        | Some _ => []
        end
      else [])
     (match err with Some e => [(SevError, e)] | None => [] end)).
Proof.
  unfold add_rule, gate_for.
  destruct (0 <? String.length name)%nat.
  - destruct (ranges !! name);
      destruct (PatternMatcher_Add _ _ _ _) as [pm' [e|]]; cbn;
      rewrite ?app_nil_r; reflexivity.
  - destruct (PatternMatcher_Add _ _ _ _) as [pm' [e|]]; reflexivity.
Qed.

Lemma length_zero_iff_empty (s : string) :
  (String.length s =? 0)%nat = true <-> s = EmptyString.
Proof. destruct s; cbn; split; congruence. Qed.


Lemma load_line_rule (ranges : gmap string WeeklyRanges) (lineNo : Z)
    (line : string) (pm : PatternMatcher) :
  TrimSpace line <> EmptyString -> HasPrefix (TrimSpace line) "#" = false ->
  load_line ranges lineNo line pm =
  let parts := Split "@" (TrimSpace line) in
  if (List.length parts =? 2)%nat then
    add_rule ranges lineNo (TrimSpace (nth 0 parts EmptyString))
      (TrimSpace (nth 1 parts EmptyString)) pm
  else if (2 <? List.length parts)%nat then
    (pm, [(SevError, "Syntax error in block rules at line " ++ fmt_d (1 + lineNo)
                     ++ " -- Unexpected @ character")])
  else add_rule ranges lineNo (TrimSpace line) EmptyString pm.
Proof.
  intros Hne Hc. unfold load_line. rewrite Hc.
  destruct (String.length (TrimSpace line) =? 0)%nat eqn:E.
  - apply length_zero_iff_empty in E. contradiction.
  - reflexivity.
Qed.

(** The loop goes through a list of lines piece by piece. *)
Lemma load_lines_app (ranges : gmap string WeeklyRanges) (before after : list string) :
  forall (lineNo : Z) (pm : PatternMatcher),
    load_lines ranges lineNo (before ++ after) pm =
    let '(pm1, log1) := load_lines ranges lineNo before pm in
    let '(pm2, log2) :=
      load_lines ranges (lineNo + Z.of_nat (List.length before)) after pm1 in
    (pm2, (log1 ++ log2)%list).
Proof.
  induction before as [|l before IH]; intros lineNo pm.
  - cbn. rewrite Z.add_0_r. destruct (load_lines _ _ _ _). reflexivity.
  - cbn [app load_lines List.length].
    destruct (load_line ranges lineNo l pm) as [pm1 log1].
    rewrite IH.
    destruct (load_lines ranges (lineNo + 1) before pm1) as [pm2 log2].
    replace (lineNo + 1 + Z.of_nat (List.length before))%Z
      with (lineNo + Z.of_nat (S (List.length before)))%Z by lia.
    destruct (load_lines _ _ after pm2) as [pm3 log3].
    rewrite app_assoc. reflexivity.
Qed.

(** [Init] once the file has been read. *)
Lemma Init_after_read (proxy : Proxy) (g : option BlockedNames) (bin : string) :
  ReadTextFile (blockNameFile proxy) = inl bin ->
  let loaded :=
    load_lines (proxy_allWeeklyRanges proxy) 0 (Split "010" bin) NewPatternPatcher in
  init_err (PluginBlockName_Init proxy g) = None
  /\ init_log (PluginBlockName_Init proxy g)
     = ((SevNotice, "Loading the set of blocking rules from ["
                    ++ blockNameFile proxy ++ "]") :: snd loaded)
  /\ exists bn,
       init_blockedNames (PluginBlockName_Init proxy g) = Some bn
       /\ patternMatcher bn = fst loaded
       /\ allWeeklyRanges bn = proxy_allWeeklyRanges proxy
       /\ (blockNameLogFile proxy = EmptyString -> logger bn = None)
       /\ (blockNameLogFile proxy <> EmptyString ->
           format bn = blockNameFormat proxy
           /\ exists lg, logger bn = Some lg /\ Filename lg = blockNameLogFile proxy).
Proof.
  intros Hr. unfold PluginBlockName_Init. rewrite Hr.
  destruct (load_lines _ _ _ _) as [pm log1]. cbn zeta.
  destruct (String.length (blockNameLogFile proxy) =? 0)%nat eqn:E; cbn.
  - apply length_zero_iff_empty in E.
    repeat split; auto. eexists; repeat split; cbn; auto; contradiction.
  - assert (blockNameLogFile proxy <> EmptyString)
      by (intros E'; rewrite E' in E; discriminate).
    repeat split; auto. eexists; repeat split; cbn; eauto; contradiction.
Qed.

End LoaderProperties.

Section LoaderTheorems.
Context `{H : Host}.

(** C7, amended.  A rule line with exactly one [@], whose time-range name is
    not empty and is absent from the catalog: the loader logs the error
    "Time range [name] not found at line N" and goes on to call
    [PatternMatcher.Add] with the trimmed pattern, the nil gate and the line
    number, as for the same pattern without annotation.  In the matcher so
    loaded, a name that [PatternMatcher.Eval] reports with that nil gate is
    rejected by [check] whatever the clock shows; and when the matcher
    reports the value given to [Add] for the names that no rule matched
    before, every name that only the new rule matches is rejected whatever
    the clock shows. *)
Theorem unknown_time_range_adds_rule_without_gate
    (ranges : gmap string WeeklyRanges) (lineNo : Z) (line p0 p1 : string)
    (pm : PatternMatcher) :
  TrimSpace line <> EmptyString ->
  HasPrefix (TrimSpace line) "#" = false ->
  Split "@" (TrimSpace line) = [p0; p1] ->
  TrimSpace p1 <> EmptyString ->
  ranges !! TrimSpace p1 = None ->
  let loaded := fst (load_line ranges lineNo line pm) in
  load_line ranges lineNo line pm =
  (let '(pm', err) := PatternMatcher_Add pm (TrimSpace p0) None (lineNo + 1) in
   (pm',
    (SevError, "Time range [" ++ TrimSpace p1 ++ "] not found at line "
               ++ fmt_d (1 + lineNo))
    :: match err with Some e => [(SevError, e)] | None => [] end))
  /\ loaded = fst (PatternMatcher_Add pm (TrimSpace p0) None (lineNo + 1))
  /\ loaded = fst (add_rule ranges lineNo (TrimSpace p0) EmptyString pm)
  /\ (forall bn q alias st w reason,
        patternMatcher bn = loaded ->
        PatternMatcher_Eval loaded (normalize q) = (true, reason, Some None) ->
        should_reject bn q w = true
        /\ (well_configured bn st ->
            exists w', check bn q alias st w = Returned (true, None) (rejected st) w'))
  /\ (reports_given_value pm loaded None ->
      forall bn q alias st w,
        patternMatcher bn = loaded ->
        fst (fst (PatternMatcher_Eval pm (normalize q))) = false ->
        fst (fst (PatternMatcher_Eval loaded (normalize q))) = true ->
        should_reject bn q w = true
        /\ (well_configured bn st ->
            exists w', check bn q alias st w = Returned (true, None) (rejected st) w')).
Proof.
  intros Hne Hc Hs Hn Hr loaded.
  assert (Hlen : (0 <? String.length (TrimSpace p1))%nat = true).
  { destruct (TrimSpace p1); [contradiction|reflexivity]. }
  assert (Hl : load_line ranges lineNo line pm
               = add_rule ranges lineNo (TrimSpace p0) (TrimSpace p1) pm).
  { rewrite load_line_rule by assumption. rewrite Hs. reflexivity. }
  assert (Hrej : forall bn q alias st w reason,
             patternMatcher bn = loaded ->
             PatternMatcher_Eval loaded (normalize q) = (true, reason, Some None) ->
             should_reject bn q w = true
             /\ (well_configured bn st ->
                 exists w',
                   check bn q alias st w = Returned (true, None) (rejected st) w')).
  { intros bn q alias st w reason Hbn He. rewrite <- Hbn in He.
    assert (Hs' : should_reject bn q w = true)
      by (unfold should_reject; rewrite He; reflexivity).
    split; [exact Hs'|]. intros Hwc.
    destruct (check_total bn q alias st w Hwc) as (st' & w' & Hck).
    rewrite Hs' in Hck.
    destruct (check_returned _ _ _ _ _ _ _ _ _ Hck) as (_ & _ & _ & Hst).
    rewrite (Hst eq_refl) in Hck. eauto. }
  split; [|split; [|split; [|split]]].
  - rewrite Hl, add_rule_spec. unfold gate_for. rewrite Hlen, Hr.
    destruct (PatternMatcher_Add _ _ _ _) as [pm' err]. reflexivity.
  - unfold loaded. rewrite Hl, add_rule_spec. unfold gate_for. rewrite Hlen, Hr.
    destruct (PatternMatcher_Add _ _ _ _) as [pm' err]. reflexivity.
  - unfold loaded. rewrite Hl, !add_rule_spec. unfold gate_for. rewrite Hlen, Hr.
    cbn. destruct (PatternMatcher_Add _ _ _ _) as [pm' err]. reflexivity.
  - exact Hrej.
  - intros Hrep bn q alias st w Hbn Hbefore Hafter.
    destruct (PatternMatcher_Eval loaded (normalize q)) as [[rej reason] v] eqn:He.
    cbn in Hafter. subst rej.
    rewrite (Hrep (normalize q) reason v He Hbefore) in He.
    apply (Hrej bn q alias st w reason Hbn He).
Qed.


(** C6, amended.  [Init] does not look at the audit format: once the file
    has been read it returns the nil error and, when an audit log file is
    configured, publishes the format as it is, known or not.  An unknown
    format is found by [check], at the first name it rejects with a logger
    configured: the process exits through [dlog.Fatalf] before anything is
    written.  With a known format, or without logger, or when the name is
    not rejected, [check] never exits. *)
Theorem audit_format_is_checked_at_first_write (proxy : Proxy)
    (g : option BlockedNames) (bin : string) :
  ReadTextFile (blockNameFile proxy) = inl bin ->
  (init_err (PluginBlockName_Init proxy g) = None
   /\ exists bn,
        init_blockedNames (PluginBlockName_Init proxy g) = Some bn
        /\ (blockNameLogFile proxy = EmptyString -> logger bn = None)
        /\ (blockNameLogFile proxy <> EmptyString ->
            format bn = blockNameFormat proxy /\ logger bn <> None))
  /\ (forall bn q alias st w,
        logger bn <> None -> ~ known_format (format bn) ->
        addr_matches_proto st -> should_reject bn q w = true ->
        check bn q alias st w = Exited ("Unexpected log format: [" ++ format bn ++ "]"))
  /\ (forall bn q alias st w msg,
        logger bn = None \/ known_format (format bn) \/ should_reject bn q w = false ->
        check bn q alias st w <> Exited msg).
Proof.
  intros Hr. split; [|split].
  - destruct (Init_after_read proxy g bin Hr) as (He & _ & bn & Hb & _ & _ & Hn & Hl).
    split; [exact He|]. exists bn. split; [exact Hb|]. split; [exact Hn|].
    intros Hf. destruct (Hl Hf) as (Hfmt & lg & Hlg & _).
    split; [exact Hfmt|]. rewrite Hlg. discriminate.
  - intros bn q alias st w Hlg Hf Ha Hs.
    destruct (check_cases bn q alias st w)
      as [[Hs' E] | [_ [[Hl E] | [(lg & line & _ & Hk & _ & E)
                       | [(lg & _ & _ & _ & E) | (lg & msg & _ & Hna & E)]]]]];
      try congruence; contradiction.
  - intros bn q alias st w msg Hc.
    destruct (check_cases bn q alias st w)
      as [[Hs' E] | [Hs' [[Hl E] | [(lg & line & _ & Hk & _ & E)
                       | [(lg & Hl & Hf & _ & E) | (lg & msg' & _ & Hna & E)]]]]];
      rewrite E; try discriminate.
    destruct Hc as [Hn | [Hk | Hs]]; [congruence | contradiction | congruence].
Qed.

End LoaderTheorems.

(** ** The scenarios of the spec, on the collaborators after the spec *)

Section Scenarios.
Import SpecHost Examples.

(** S1: rule [ads.example]; [foo.ads.example.] is rejected with the rule as
    reason, [fooads.example.] passes. *)
Example S1_suffix :
  PluginBlockName_Eval (Some (blocked "tsv")) (query "foo.ads.example.") st0
    (world_at wednesday_noon)
  = Returned None (rejected st0)
      (append_line (tsv_line "foo.ads.example" "ads.example")
         (tick (world_at wednesday_noon)))
  /\ PluginBlockName_Eval (Some (blocked "tsv")) (query "fooads.example.") st0
       (world_at wednesday_noon)
     = Returned None st0 (world_at wednesday_noon).
Proof. split; reflexivity. Qed.

(** S2: rule [=only.example]. *)
Example S2_exact :
  PluginBlockName_Eval (Some (blocked "tsv")) (query "only.example.") st0
    (world_at wednesday_noon)
  = Returned None (rejected st0)
      (append_line (tsv_line "only.example" "=only.example")
         (tick (world_at wednesday_noon)))
  /\ PluginBlockName_Eval (Some (blocked "tsv")) (query "sub.only.example.") st0
       (world_at wednesday_noon)
     = Returned None st0 (world_at wednesday_noon).
Proof. split; reflexivity. Qed.

(** S5: rule [social @work-hours]: the clock is read once for the gate and,
    on Wednesday, once more for the audit line. *)
Example S5_time_gated :
  PluginBlockName_Eval (Some (blocked "tsv")) (query "social.") st0
    (world_at wednesday_noon)
  = Returned None (rejected st0)
      (append_line (tsv_line "social" "social")
         (tick (tick (world_at wednesday_noon))))
  /\ PluginBlockName_Eval (Some (blocked "tsv")) (query "social.") st0
       (world_at saturday_noon)
     = Returned None st0 (tick (world_at saturday_noon)).
Proof. split; reflexivity. Qed.

(** S6: the first alias of the chain is blocked; the reason names the
    original question. *)
Example S6_cname_chain :
  PluginBlockNameResponse_Eval (Some (blocked "tsv")) cname_chain st0
    (world_at wednesday_noon)
  = Returned None (rejected st0)
      (append_line (tsv_line "a.tracker.net" "tracker.net (alias for [x])")
         (tick (world_at wednesday_noon))).
Proof. reflexivity. Qed.

(** The budget of eight aliases: a blocked ninth alias is not looked at, a
    blocked eighth one is; address records in between do not count. *)
Example alias_budget :
  PluginBlockNameResponse_Eval (Some (blocked "tsv")) ninth_is_blocked st0
    (world_at wednesday_noon)
  = Returned None st0 (world_at wednesday_noon)
  /\ PluginBlockNameResponse_Eval (Some (blocked "tsv")) eighth_is_blocked st0
       (world_at wednesday_noon)
     = Returned None (rejected st0)
         (append_line (tsv_line "ads.example" "ads.example (alias for [x])")
            (tick (world_at wednesday_noon))).
Proof. split; reflexivity. Qed.

End Scenarios.

(** ** The properties at concrete inputs *)

Section Witnesses.
Import SpecHost Examples.

Lemma st0_well_configured (fmt : string) :
  known_format fmt -> well_configured (blocked fmt) st0.
Proof. intros Hk. right. split; [exact Hk | reflexivity]. Qed.

(** The gated rule [social @work-hours]: rejected on Wednesday at noon, not
    on Saturday at noon. *)
Lemma check_rejects_iff_match_and_gate_witness :
  (true = true <->
   should_reject (blocked "tsv") "Social." (world_at wednesday_noon) = true)
  /\ (exists w',
        check (blocked "tsv") "social." None st0 (world_at saturday_noon)
        = Returned (false, None) st0 w' /\ written w' = written (world_at saturday_noon))
  /\ (exists w',
        check (blocked "tsv") "Social." None st0 (world_at wednesday_noon)
        = Returned (true, None) (rejected st0) w').
Proof.
  destruct (check_rejects_iff_match_and_gate (blocked "tsv") "Social." None st0
              (world_at wednesday_noon)) as (A & _ & C).
  destruct (check_rejects_iff_match_and_gate (blocked "tsv") "social." None st0
              (world_at saturday_noon)) as (_ & B & _).
  split; [|split].
  - apply (A true None (rejected st0)
             (append_line (tsv_line "social" "social")
                (tick (tick (world_at wednesday_noon))))).
    reflexivity.
  - apply B. reflexivity.
  - apply C; [reflexivity | apply st0_well_configured; left; reflexivity].
Defined.

Lemma whitelisted_session_untouched_witness :
  PluginBlockName_Eval (Some (blocked "tsv")) (query "ads.example.")
    st_whitelisted (world_at wednesday_noon)
  = Returned None st_whitelisted (world_at wednesday_noon)
  /\ PluginBlockNameResponse_Eval (Some (blocked "tsv")) two_questions
       st_whitelisted (world_at wednesday_noon)
     = Returned None st_whitelisted (world_at wednesday_noon).
Proof.
  split.
  - apply (whitelisted_session_untouched (Some (blocked "tsv")) (query "ads.example.")
             st_whitelisted (world_at wednesday_noon) (IBool true));
      [reflexivity | discriminate].
  - apply (whitelisted_session_untouched (Some (blocked "tsv")) two_questions
             st_whitelisted (world_at wednesday_noon) (IBool true));
      [reflexivity | discriminate].
Defined.

Lemma not_one_question_is_noop_witness :
  PluginBlockName_Eval (Some (blocked "tsv")) two_questions st0
    (world_at wednesday_noon)
  = Returned None st0 (world_at wednesday_noon)
  /\ PluginBlockNameResponse_Eval (Some (blocked "tsv")) two_questions st0
       (world_at wednesday_noon)
     = Returned None st0 (world_at wednesday_noon).
Proof.
  apply (not_one_question_is_noop (Some (blocked "tsv")) two_questions st0
           (world_at wednesday_noon)).
  simpl. discriminate.
Defined.



(** Against C6 as stated: an audit format [xml] goes through [Init], which
    returns the nil error and publishes it, and stops the process at the
    first rejected name. *)
Lemma unknown_format_passes_init_and_exits_at_write :
  blockNameLogFile proxy_xml = "blocked.log"
  /\ blockNameFormat proxy_xml = "xml"
  /\ init_err (PluginBlockName_Init proxy_xml None) = None
  /\ option_map format (init_blockedNames (PluginBlockName_Init proxy_xml None))
     = Some "xml"
  /\ PluginBlockName_Eval (init_blockedNames (PluginBlockName_Init proxy_xml None))
       (query "ads.example.") st0 (world_at wednesday_noon)
     = Exited "Unexpected log format: [xml]"
  /\ ~ @unknown_format_fatal_at_init spec_host
  /\ ~ @format_never_fails_at_write spec_host.
Proof.
  split; [reflexivity|]. split; [reflexivity|]. split; [reflexivity|].
  split; [reflexivity|]. split; [reflexivity|]. split.
  - intros Hc. apply (Hc proxy_xml None).
    + discriminate.
    + intros [E|E]; discriminate E.
    + reflexivity.
  - intros Hc.
    apply (Hc proxy_xml None (blocked "xml") "ads.example." None st0
             (world_at wednesday_noon) "Unexpected log format: [xml]");
      reflexivity.
Qed.

Lemma audit_format_is_checked_at_first_write_witness :
  init_err (PluginBlockName_Init proxy_xml None) = None
  /\ check (blocked "xml") "ads.example." None st0 (world_at wednesday_noon)
     = Exited "Unexpected log format: [xml]"
  /\ check (blocked "ltsv") "ads.example." None st0 (world_at wednesday_noon)
     <> Exited "Unexpected log format: [ltsv]".
Proof.
  destruct (audit_format_is_checked_at_first_write proxy_xml None rules eq_refl)
    as ((A & _) & B & C).
  split; [exact A|]. split.
  - apply (B (blocked "xml") "ads.example." None st0 (world_at wednesday_noon)).
    + discriminate.
    + intros [E|E]; discriminate E.
    + reflexivity.
    + reflexivity.
  - apply C. right. left. right. reflexivity.
Defined.

Lemma find_app_none {A} (f : A -> bool) (l l' : list A) :
  List.find f l = None -> List.find f (l ++ l') = List.find f l'.
Proof.
  induction l as [|x l IH]; [reflexivity|]. cbn.
  destruct (f x); [discriminate | exact IH].
Qed.

(** When no rule of [m] matches, a hit in [m] with one more rule is that
    rule. *)
Lemma first_hit_new_rule (ks : list Kind) (m : Matcher) (x r : Rule) (name : string) :
  first_hit ks m name = None ->
  first_hit ks (m ++ [x])%list name = Some r -> r = x.
Proof.
  induction ks as [|k ks IH]; [discriminate|]. cbn [first_hit].
  unfold first_of.
  destruct (List.find _ m) as [r0|] eqn:E; [discriminate|].
  rewrite (find_app_none _ m [x] E). cbn [List.find].
  destruct (Kind_eqb (kind x) k && matches x name).
  - intros _ [= <-]. reflexivity.
  - exact IH.
Qed.

(** The matcher after the spec keeps its side of [Add]. *)
Lemma Add_reports_given_value (fs : string -> string + error) (m : Matcher)
    (text : string) (val : option Ranges) (line : Z) :
  @reports_given_value (host fs) m (fst (Add m text val line)) val.
Proof.
  intros name reason v He Hmiss.
  change (Eval (fst (Add m text val line)) name = (true, reason, v)) in He.
  change (fst (fst (Eval m name)) = false) in Hmiss.
  unfold Eval in He, Hmiss.
  destruct (first_hit _ m name) as [r0|] eqn:E0; [discriminate Hmiss|].
  unfold Add in He. destruct (classify _) as [k nm].
  destruct (String.length nm =? 0)%nat; cbn [fst] in He.
  - rewrite E0 in He. discriminate He.
  - destruct (first_hit _ (m ++ _)%list name) as [r|] eqn:E1; [|discriminate He].
    apply (first_hit_new_rule _ _ _ _ _ E0) in E1. subst r.
    injection He as _ <-. reflexivity.
Qed.

(** Line 5 of [rules], [game @nosuch], loaded alone. *)
Lemma unknown_time_range_adds_rule_without_gate_witness :
  load_line catalog 4 "game @nosuch" no_rules
  = ([{| kind := Suffix; pattern := "game"; raw_text := "game";
         time_gate := None; line_number := 5 |}],
     [(SevError, "Time range [nosuch] not found at line 5")])
  /\ should_reject blocked_game "game." (world_at saturday_noon) = true
  /\ (exists w',
        check blocked_game "game." None st0 (world_at saturday_noon)
        = Returned (true, None) (rejected st0) w')
  /\ (exists w',
        check blocked_game "Sub.Game." None st0 (world_at wednesday_noon)
        = Returned (true, None) (rejected st0) w').
Proof.
  assert (Hwc : well_configured blocked_game st0)
    by (right; split; [left; reflexivity | reflexivity]).
  destruct (unknown_time_range_adds_rule_without_gate catalog 4
              "game @nosuch" "game " "nosuch" no_rules)
    as (A & _ & _ & C & D); try reflexivity; try discriminate.
  split; [exact A|].
  destruct (C blocked_game "game." None st0 (world_at saturday_noon) "game")
    as (E & F); [reflexivity | reflexivity |].
  split; [exact E|]. split; [exact (F Hwc)|].
  destruct (D (Add_reports_given_value fs no_rules "game" None 5)
              blocked_game "Sub.Game." None st0 (world_at wednesday_noon))
    as (_ & G); [reflexivity | reflexivity | reflexivity |].
  exact (G Hwc).
Defined.

(** Against C7 as stated: the suffix rule [game] is added without gate, with
    the diagnostic for the unknown time range, and matches [game]; yet the
    exact rule [=game], which comes first in the order of evaluation,
    answers for that name with its gate, and on Saturday [game.] passes. *)
Lemma ungated_rule_behind_gated_exact_rule_passes :
  load_lines catalog 0 exact_then_suffix no_rules
  = ([game_exact_gated; game_suffix_ungated],
     [(SevError, "Time range [nosuch] not found at line 2")])
  /\ matches game_suffix_ungated (normalize "game.") = true
  /\ Eval [game_exact_gated; game_suffix_ungated] (normalize "game.")
     = (true, "=game", Some (Some work_hours))
  /\ check blocked_exact_then_suffix "game." None st0 (world_at saturday_noon)
     = Returned (false, None) st0 (tick (world_at saturday_noon))
  /\ check blocked_exact_then_suffix "game." None st0 (world_at wednesday_noon)
     = Returned (true, None) (rejected st0)
         (append_line (tsv_line "game" "=game")
            (tick (tick (world_at wednesday_noon)))).
Proof. repeat split. Qed.


Lemma log_not_initialized_is_unreachable_witness :
  (exists b st' w',
     check (blocked "tsv") "ads.example." None st0 (world_at wednesday_noon)
     = Returned (b, None) st' w')
  /\ (exists st' w',
        PluginBlockName_Eval (Some (blocked "tsv")) (query "ads.example.") st0
          (world_at wednesday_noon) = Returned None st' w')
  /\ (exists st' w',
        PluginBlockNameResponse_Eval (Some (blocked "tsv")) two_questions st0
          (world_at wednesday_noon) = Returned None st' w').
Proof.
  destruct (log_not_initialized_is_unreachable (blocked "tsv")
              (Some (blocked "tsv")) (query "ads.example.") "ads.example." None st0
              (world_at wednesday_noon)) as (_ & _ & _ & A & B & _).
  destruct (log_not_initialized_is_unreachable (blocked "tsv")
              (Some (blocked "tsv")) two_questions "ads.example." None st0
              (world_at wednesday_noon)) as (_ & _ & _ & _ & _ & C).
  split; [apply A; apply st0_well_configured; left; reflexivity|].
  split.
  - apply B. intros bn' [= <-]. apply st0_well_configured; left; reflexivity.
  - apply C.
    + intros bn' [= <-]. apply st0_well_configured; left; reflexivity.
    + repeat constructor. intros _. eexists _, _. reflexivity.
Defined.

Lemma check_true_sets_reject_false_frames_witness :
  (exists st' w',
     check (blocked "tsv") "ads.example." None st0 (world_at wednesday_noon)
     = Returned (true, None) st' w'
     /\ action st' = Reject /\ returnCode st' = Reject)
  /\ exists b st' w',
       check (blocked "tsv") "only.example." None st0 (world_at wednesday_noon)
       = Returned (b, None) st' w'.
Proof.
  destruct (check_true_sets_reject_false_frames (blocked "tsv") "ads.example."
              None st0 (world_at wednesday_noon)) as (A & _).
  destruct (check_true_sets_reject_false_frames (blocked "tsv") "only.example."
              None st0 (world_at wednesday_noon)) as (_ & B).
  split.
  - assert (Hc : check (blocked "tsv") "ads.example." None st0 (world_at wednesday_noon)
                 = Returned (true, None) (rejected st0)
                     (append_line (tsv_line "ads.example" "ads.example")
                        (tick (world_at wednesday_noon)))) by reflexivity.
    destruct (A _ _ _ _ Hc) as (Ht & _).
    destruct (Ht eq_refl) as (_ & Ha & Hr).
    eexists _, _. split; [exact Hc|]. split; [exact Ha | exact Hr].
  - apply B. apply st0_well_configured. left. reflexivity.
Defined.

End Witnesses.

(** ** Further properties of [check] *)

Section AuditTrail.
Context `{H : Host}.

(** [check] on a name the matcher reports, with the gate open. *)
Lemma check_on_match (bn : BlockedNames) (q : string) (alias : option string)
    (st : PluginsState) (w : World) (reason : string)
    (val : option (option WeeklyRanges)) :
  PatternMatcher_Eval (patternMatcher bn) (normalize q) = (true, reason, val) ->
  gate_open (gate_of val) (clock w (reads w)) = true ->
  check bn q alias st w =
  match logger bn with
  | Some lg =>
      (clientIPStr <- clientIP (rejected st) ;;
       line <- format_line (format bn) clientIPStr (normalize q)
                 (alias_reason reason alias) ;;
       logger_Write lg line ;;; ret (true, None)) (rejected st) (gate_world bn q w)
  | None => Returned (true, None) (rejected st) (gate_world bn q w)
  end.
Proof.
  unfold gate_world, check, normalize, alias_reason. intros He Hg.
  rewrite He. unfold gate_of in *. destruct val as [[wr|]|]; simpl in *.
  - run_M. rewrite Hg. simpl. destruct (logger bn); reflexivity.
  - run_M. destruct (logger bn); reflexivity.
  - run_M. destruct (logger bn); reflexivity.
Qed.

Lemma clientIP_value (st st1 : PluginsState) (w1 : World) :
  addr_matches_proto st ->
  clientIP st st1 w1 = Returned (IP_String (addr_ip (clientAddr st))) st1 w1.
Proof.
  unfold addr_matches_proto, clientIP. intros Hm.
  destruct (clientAddr st) as [ip|ip].
  - rewrite Hm. reflexivity.
  - destruct (String.eqb_spec (clientProto st) "udp") as [E|E]; [contradiction|].
    reflexivity.
Qed.

(** X1.  The audit line.  When [check] rejects with a logger configured, exactly
    one line is handed to the logger, after the clock has been read once
    more; it carries the client IP, the quoted normalized name (not the name
    as queried) and the quoted reason: in the format [tsv] behind the
    bracketed date and time, in the format [ltsv] as labelled fields behind
    the Unix time. *)
Theorem audit_line_written (bn : BlockedNames) (lg : Logger) (q : string)
    (alias : option string) (st : PluginsState) (w : World) (reason : string)
    (val : option (option WeeklyRanges)) :
  logger bn = Some lg ->
  addr_matches_proto st ->
  PatternMatcher_Eval (patternMatcher bn) (normalize q) = (true, reason, val) ->
  gate_open (gate_of val) (clock w (reads w)) = true ->
  let w1 := gate_world bn q w in
  let now := clock w1 (reads w1) in
  let ip := IP_String (addr_ip (clientAddr st)) in
  let why := alias_reason reason alias in
  (format bn = "tsv" ->
   check bn q alias st w =
   Returned (true, None) (rejected st)
     (append_line
        (("[" ++ fmt_d (year now) ++ "-" ++ fmt_02d (month now) ++ "-"
          ++ fmt_02d (day now) ++ " " ++ fmt_02d (hour now) ++ ":"
          ++ fmt_02d (minute now) ++ ":" ++ fmt_02d (second now) ++ "]")
         ++ tab ++ ip ++ tab ++ StringQuote (normalize q) ++ tab
         ++ StringQuote why ++ newline)
        (tick w1)))
  /\ (format bn = "ltsv" ->
      check bn q alias st w =
      Returned (true, None) (rejected st)
        (append_line
           ("time:" ++ fmt_d (unix now) ++ tab ++ "host:" ++ ip ++ tab
            ++ "qname:" ++ StringQuote (normalize q) ++ tab
            ++ "message:" ++ StringQuote why ++ newline)
           (tick w1))).
Proof.
  intros Hl Ha He Hg w1 now ip why.
  assert (Hc := check_on_match bn q alias st w reason val He Hg).
  rewrite Hl in Hc.
  assert (Ha' : addr_matches_proto (rejected st))
    by (apply addr_matches_proto_rejected; exact Ha).
  split; intros Hf; rewrite Hc; unfold bind at 1;
    rewrite (clientIP_value (rejected st) (rejected st) (gate_world bn q w) Ha');
    rewrite Hf; reflexivity.
Qed.

(** What a returning [check] has handed to the logger: nothing, or one line
    after a rejection with a logger configured. *)
Lemma check_written (bn : BlockedNames) (q : string) (alias : option string)
    (st st' : PluginsState) (w w' : World) (b : bool) (e : option error) :
  check bn q alias st w = Returned (b, e) st' w' ->
  (written w' = written w /\ (b = true -> logger bn = None))
  \/ (b = true /\ logger bn <> None /\ exists line, written w' = (written w ++ [line])%list).
Proof.
  intros Hc.
  destruct (check_cases bn q alias st w)
    as [[Hs E] | [Hs [[Hl E] | [(lg & line & Hl & _ & _ & E)
                     | [(lg & _ & _ & _ & E) | (lg & msg & _ & _ & E)]]]]];
    rewrite E in Hc; try discriminate; injection Hc as <- <- <- <-.
  - left. split; [apply written_gate_world | discriminate].
  - left. split; [apply written_gate_world | auto].
  - right. split; [reflexivity|]. split; [congruence|]. exists line.
    cbn. rewrite written_gate_world. reflexivity.
Qed.

(** X2.  The alias has no say in the decision.  Two runs of [check] on the same
    name, state and world that differ in [aliasFor] only end alike: when one
    returns, the other returns the same decision and the same state, after
    as many clock readings and as many audit lines. *)
Theorem alias_does_not_change_decision (bn : BlockedNames) (q : string)
    (alias1 alias2 : option string) (st st' : PluginsState) (w w' : World)
    (b : bool) (e : option error) :
  check bn q alias1 st w = Returned (b, e) st' w' ->
  exists w'',
    check bn q alias2 st w = Returned (b, e) st' w''
    /\ reads w'' = reads w'
    /\ List.length (written w'') = List.length (written w').
Proof.
  intros Hc.
  destruct (check_cases bn q alias1 st w)
    as [[Hs E] | [Hs [[Hl E] | [(lg & line & Hl & Hk & Ha & E)
                     | [(lg & _ & _ & _ & E) | (lg & msg & _ & _ & E)]]]]];
    rewrite E in Hc; try discriminate; injection Hc as <- <- <- <-;
    destruct (check_cases bn q alias2 st w)
      as [[Hs2 E2] | [Hs2 [[Hl2 E2] | [(lg2 & line2 & Hl2 & Hk2 & Ha2 & E2)
                       | [(lg2 & Hl2 & Hk2 & _ & E2) | (lg2 & msg2 & Hl2 & Ha2 & E2)]]]]];
    try congruence; try contradiction;
    rewrite E2; eexists; (split; [reflexivity|]); split; try reflexivity.
  cbn. rewrite !length_app. reflexivity.
Qed.

(** X3.  [check] never undoes a rejection and never touches another field: on
    return the protocol, the address, the session data and the other fields
    are those of the incoming state, and an [action] or a [returnCode] that
    was already the rejecting one still is. *)
Theorem check_keeps_rejection_and_frame (bn : BlockedNames) (q : string)
    (alias : option string) (st st' : PluginsState) (w w' : World)
    (b : bool) (e : option error) :
  check bn q alias st w = Returned (b, e) st' w' ->
  clientProto st' = clientProto st
  /\ clientAddr st' = clientAddr st
  /\ sessionData st' = sessionData st
  /\ otherFields st' = otherFields st
  /\ (action st = PluginsActionReject -> action st' = PluginsActionReject)
  /\ (returnCode st = PluginsReturnCodeReject ->
      returnCode st' = PluginsReturnCodeReject).
Proof.
  intros Hc.
  destruct (check_returned _ _ _ _ _ _ _ _ _ Hc) as (_ & _ & Hf & Ht).
  destruct b.
  - rewrite (Ht eq_refl). cbn. auto 10.
  - destruct (Hf eq_refl) as [-> _]. auto 10.
Qed.

End AuditTrail.

(** ** Further properties of the two [Eval]s *)

Section EvalEffects.
Context `{H : Host}.

Lemma not_whitelisted_unfold (bn : BlockedNames) (msg : Msg) (q : dnsQuestion)
    (st : PluginsState) (w : World) :
  iface_is_nil (session_get st "whitelisted") = true ->
  Question msg = [q] ->
  PluginBlockName_Eval (Some bn) msg st w
  = (r <- check bn (Name q) None ;; ret (snd r)) st w
  /\ PluginBlockNameResponse_Eval (Some bn) msg st w
     = walk_answers bn (Name q) aliasesLimit (Answer msg) st w.
Proof.
  intros Hn Hq.
  rewrite PluginBlockName_Eval_unfold, PluginBlockNameResponse_Eval_unfold, Hn, Hq.
  split; reflexivity.
Qed.

(** X4.  The query-side [Eval] rejects exactly when the plugin is initialized,
    the session is not whitelisted, the message has one question and
    [check] decides to reject its name; in every other case it returns
    with the state as it was and nothing written. *)
Theorem query_eval_rejects_iff (g : option BlockedNames) (msg : Msg)
    (st : PluginsState) (w : World) :
  (forall e st' w',
      PluginBlockName_Eval g msg st w = Returned e st' w' ->
      (st' = st /\ written w' = written w)
      \/ (exists bn q,
            g = Some bn
            /\ iface_is_nil (session_get st "whitelisted") = true
            /\ Question msg = [q]
            /\ should_reject bn (Name q) w = true
            /\ st' = rejected st))
  /\ (forall bn q,
        g = Some bn ->
        iface_is_nil (session_get st "whitelisted") = true ->
        Question msg = [q] ->
        well_configured bn st ->
        exists w',
          PluginBlockName_Eval g msg st w
          = Returned None
              (if should_reject bn (Name q) w then rejected st else st) w').
Proof.
  split.
  - intros e st' w'. rewrite PluginBlockName_Eval_unfold.
    destruct g as [bn|]; [|intros [= _ <- <-]; auto].
    destruct (iface_is_nil _) eqn:Hn; [|intros [= _ <- <-]; auto].
    destruct (Question msg) as [|q [|]] eqn:Hq; try (intros [= _ <- <-]; auto).
    unfold bind, ret.
    destruct (check bn (Name q) None st w) as [[b e1] st1 w1| |] eqn:Hc;
      try discriminate.
    intros [= _ <- <-].
    destruct (check_returned _ _ _ _ _ _ _ _ _ Hc) as (_ & Hb & Hf & Ht).
    destruct b.
    + right. exists bn, q. repeat split; auto.
    + destruct (Hf eq_refl) as [-> ->]. left. split; [reflexivity|].
      apply written_gate_world.
  - intros bn q -> Hn Hq Hwc.
    destruct (not_whitelisted_unfold bn msg q st w Hn Hq) as [-> _].
    destruct (check_total bn (Name q) None st w Hwc) as (st1 & w1 & Hc).
    unfold bind, ret. rewrite Hc. cbn.
    destruct (check_returned _ _ _ _ _ _ _ _ _ Hc) as (_ & _ & Hf & Ht).
    exists w1. destruct (should_reject bn (Name q) w).
    + rewrite (Ht eq_refl). reflexivity.
    + destruct (Hf eq_refl) as [-> _]. reflexivity.
Qed.

(** What the loop has done when it returns: nothing, or one rejection with
    at most one audit line. *)
Lemma walk_answers_effect (bn : BlockedNames) (aliasFor : string)
    (answers : list RR) :
  forall (n : Z) (st st' : PluginsState) (w w' : World) (e : option error),
    walk_answers bn aliasFor n answers st w = Returned e st' w' ->
    (st' = st /\ written w' = written w)
    \/ (st' = rejected st
        /\ ((logger bn = None /\ written w' = written w)
            \/ (logger bn <> None
                /\ exists line, written w' = (written w ++ [line])%list))).
Proof.
  induction answers as [|rr rest IH]; intros n st st' w w' e.
  - cbn. intros [= _ <- <-]. auto.
  - cbn [walk_answers].
    destruct (negb _ || negb _); [apply IH|].
    unfold bind at 1. destruct (as_CNAME rr st w) as [target st0 w0| |] eqn:Ht;
      try discriminate.
    assert (st0 = st /\ w0 = w) as [-> ->]
      by (destruct rr; cbn in Ht; [injection Ht; auto | discriminate]).
    unfold bind at 1.
    destruct (check bn target (Some aliasFor) st w) as [[b e1] st1 w1| |] eqn:Hc;
      try discriminate.
    destruct (check_returned _ _ _ _ _ _ _ _ _ Hc) as (-> & _ & Hf & Hr).
    cbn [fst snd]. destruct b.
    + cbn. intros [= _ <- <-]. right. split; [apply Hr; reflexivity|].
      destruct (check_written _ _ _ _ _ _ _ _ _ Hc) as [[Hw Hl] | (_ & Hl & Hw)];
        [left | right]; auto.
    + destruct (Hf eq_refl) as [-> ->].
      rewrite bool_decide_eq_false_2 by (intros E; apply E; reflexivity).
      cbn [orb]. destruct (_ =? 0)%Z.
      * intros [= _ <- <-]. left. split; [reflexivity | apply written_gate_world].
      * intros Hw. apply IH in Hw. rewrite written_gate_world in Hw. exact Hw.
Qed.

(** X5.  One response, at most one rejection and one audit line.  When the
    response-side [Eval] returns, either the state is as it was and nothing
    has been written, or the state is the rejected one and at most one line
    has been handed to the logger: exactly one when a logger is
    configured, however many aliases the answer lists. *)
Theorem response_eval_at_most_one_audit_line (g : option BlockedNames) (msg : Msg)
    (st st' : PluginsState) (w w' : World) (e : option error) :
  PluginBlockNameResponse_Eval g msg st w = Returned e st' w' ->
  (st' = st /\ written w' = written w)
  \/ (st' = rejected st
      /\ exists bn,
           g = Some bn
           /\ ((logger bn = None /\ written w' = written w)
               \/ (logger bn <> None
                   /\ exists line, written w' = (written w ++ [line])%list))).
Proof.
  rewrite PluginBlockNameResponse_Eval_unfold.
  destruct g as [bn|]; [|intros [= _ <- <-]; auto].
  destruct (iface_is_nil _); [|intros [= _ <- <-]; auto].
  destruct (Question msg) as [|q [|]]; try (intros [= _ <- <-]; auto).
  intros Hw. apply walk_answers_effect in Hw.
  destruct Hw as [Hw | [Hs Hw]]; [left; exact Hw|].
  right. split; [exact Hs|]. exists bn. auto.
Qed.

(** X6.  The response-side [Eval] looks at alias targets only, never at the name
    in the question: a response without any Internet-class CNAME answer is
    passed untouched, whatever the question and the rules. *)
Theorem response_without_cname_is_passed (g : option BlockedNames) (msg : Msg)
    (st : PluginsState) (w : World) :
  List.filter is_inet_cname (Answer msg) = [] ->
  PluginBlockNameResponse_Eval g msg st w = Returned None st w.
Proof.
  intros Hf. rewrite PluginBlockNameResponse_Eval_unfold.
  destruct g as [bn|]; [|reflexivity].
  destruct (iface_is_nil _); [|reflexivity].
  destruct (Question msg) as [|q [|]]; try reflexivity.
  rewrite (walk_answers_check_each bn (Name q) (Answer msg) 7), Hf.
  reflexivity.
Qed.

Lemma ungated_should_reject (bn : BlockedNames) (q : string) (w : World) :
  ungated bn -> should_reject bn q w = name_matches bn q.
Proof.
  intros Hu. unfold should_reject, name_matches.
  specialize (Hu (normalize q)).
  destruct (PatternMatcher_Eval _ _) as [[rej reason] val]. cbn in *.
  rewrite Hu. cbn. apply andb_true_r.
Qed.

Lemma filter_well_typed (answers : list RR) :
  well_typed_answers answers ->
  Forall (fun rr => exists h t, rr = CNAME h t) (List.filter is_inet_cname answers).
Proof.
  induction 1 as [|rr rest Hrr _ IH]; cbn; [constructor|].
  destruct (is_inet_cname rr) eqn:E; [constructor; auto | exact IH].
Qed.

(** The walk of the spec over CNAME records, under rules without gate. *)
Lemma check_each_ungated (bn : BlockedNames) (aliasFor : string) (rrs : list RR)
    (st : PluginsState) :
  Forall (fun rr => exists h t, rr = CNAME h t) rrs ->
  ungated bn -> well_configured bn st ->
  forall w, exists w',
    check_each bn aliasFor rrs st w =
    Returned None
      (if existsb (fun rr => name_matches bn (cname_target rr)) rrs
       then rejected st else st) w'.
Proof.
  intros Hrrs Hu Hwc.
  induction Hrrs as [|rr rest (h & t & ->) _ IH]; intros w.
  - cbn. unfold ret. eauto.
  - cbn [check_each as_CNAME existsb cname_target].
    unfold bind at 1. unfold ret at 1. unfold bind at 1.
    destruct (check_total bn t (Some aliasFor) st w Hwc) as (st1 & w1 & Hc).
    rewrite Hc. cbn [fst snd].
    destruct (check_returned _ _ _ _ _ _ _ _ _ Hc) as (_ & _ & Hf & Hr).
    rewrite (ungated_should_reject bn t w Hu) in *.
    destruct (name_matches bn t).
    + cbn. rewrite (Hr eq_refl). unfold ret. eauto.
    + destruct (Hf eq_refl) as [-> _].
      rewrite bool_decide_eq_false_2 by (intros E; apply E; reflexivity).
      cbn [orb]. apply IH.
Qed.

(** X7.  Under rules without time gate, the response-side [Eval] of a message
    with one question, from a session that is not whitelisted, rejects
    exactly when one of the first eight Internet-class CNAME targets of the
    answer matches a rule. *)
Theorem response_eval_rejects_iff_an_alias_matches (bn : BlockedNames) (msg : Msg)
    (q : dnsQuestion) (st : PluginsState) (w : World) :
  iface_is_nil (session_get st "whitelisted") = true ->
  Question msg = [q] ->
  ungated bn -> well_configured bn st -> well_typed_answers (Answer msg) ->
  exists w',
    PluginBlockNameResponse_Eval (Some bn) msg st w =
    Returned None
      (if existsb (fun rr => name_matches bn (cname_target rr))
            (firstn 8 (List.filter is_inet_cname (Answer msg)))
       then rejected st else st) w'.
Proof.
  intros Hn Hq Hu Hwc Hwt.
  destruct (not_whitelisted_unfold bn msg q st w Hn Hq) as [_ ->].
  rewrite (walk_answers_check_each bn (Name q) (Answer msg) 7).
  apply check_each_ungated; auto.
  apply Forall_take. apply filter_well_typed. exact Hwt.
Qed.

(** X8.  Without audit log file nothing stops the process and nothing is
    written.  After an [Init] that has read the rule file with no log file
    configured, the query-side [Eval] returns the nil error on every
    message, state and world, and so does the response-side [Eval] on
    well-typed answers; the logger is handed nothing. *)
Theorem without_log_file_eval_always_returns (proxy : Proxy)
    (g : option BlockedNames) (bin : string) (msg : Msg) (st : PluginsState)
    (w : World) :
  ReadTextFile (blockNameFile proxy) = inl bin ->
  blockNameLogFile proxy = EmptyString ->
  (exists st' w',
     PluginBlockName_Eval (init_blockedNames (PluginBlockName_Init proxy g)) msg st w
     = Returned None st' w' /\ written w' = written w)
  /\ (well_typed_answers (Answer msg) ->
      exists st' w',
        PluginBlockNameResponse_Eval (init_blockedNames (PluginBlockName_Init proxy g))
          msg st w
        = Returned None st' w' /\ written w' = written w).
Proof.
  intros Hr Hl.
  destruct (Init_after_read proxy g bin Hr) as (_ & _ & bn & -> & _ & _ & Hn & _).
  specialize (Hn Hl).
  assert (Hwc : well_configured bn st) by (left; exact Hn).
  split.
  - rewrite PluginBlockName_Eval_unfold.
    destruct (iface_is_nil _); [|eauto].
    destruct (Question msg) as [|q [|]]; eauto.
    destruct (check_total bn (Name q) None st w Hwc) as (st1 & w1 & Hc).
    unfold bind, ret. rewrite Hc. cbn. exists st1, w1. split; [reflexivity|].
    destruct (check_written _ _ _ _ _ _ _ _ _ Hc) as [[Hw _] | (_ & Hne & _)];
      [exact Hw | contradiction].
  - intros Hwt. rewrite PluginBlockNameResponse_Eval_unfold.
    destruct (iface_is_nil _); [|eauto].
    destruct (Question msg) as [|q [|]]; eauto.
    destruct (walk_answers_total bn (Name q) (Answer msg) Hwt aliasesLimit st w Hwc)
      as (st1 & w1 & Hw).
    exists st1, w1. split; [exact Hw|].
    destruct (walk_answers_effect _ _ _ _ _ _ _ _ _ Hw)
      as [[_ E] | [_ [[_ E] | [Hne _]]]]; auto. contradiction.
Qed.

End EvalEffects.

(** ** Further properties of the loader *)

Section LineGrammar.
Context `{H : Host}.

Lemma string_app_nil (s : string) : EmptyString ++ s = s.
Proof. reflexivity. Qed.

Lemma string_app_cons (c : ascii) (r s : string) :
  String c r ++ s = String c (r ++ s).
Proof. reflexivity. Qed.

Lemma TrimLeft_all_space (b : string) : all_space b = true -> TrimLeft b = EmptyString.
Proof.
  induction b as [|c r IH]; [reflexivity|]. cbn [all_space TrimLeft].
  intros [Hc Hr]%andb_true_iff. rewrite Hc. auto.
Qed.

Lemma TrimRight_all_space (b : string) : all_space b = true -> TrimRight b = EmptyString.
Proof.
  induction b as [|c r IH]; [reflexivity|]. cbn [all_space TrimRight].
  intros [Hc Hr]%andb_true_iff. rewrite (IH Hr), Hc. reflexivity.
Qed.

Lemma TrimLeft_padding (a s : string) :
  all_space a = true -> TrimLeft (a ++ s) = TrimLeft s.
Proof.
  induction a as [|c r IH]; [reflexivity|].
  rewrite ?string_app_cons, ?string_app_nil; cbn [all_space TrimLeft].
  intros [Hc Hr]%andb_true_iff. rewrite Hc. auto.
Qed.

Lemma TrimRight_padding (s b : string) :
  all_space b = true -> TrimRight (s ++ b) = TrimRight s.
Proof.
  intros Hb. induction s as [|c r IH].
  - apply TrimRight_all_space; exact Hb.
  - rewrite ?string_app_cons, ?string_app_nil; cbn [TrimRight]. rewrite IH. reflexivity.
Qed.

Lemma TrimSpace_padding (a s b : string) :
  all_space a = true -> all_space b = true ->
  TrimSpace (a ++ s ++ b) = TrimSpace s.
Proof.
  intros Ha Hb. unfold TrimSpace. rewrite TrimLeft_padding by exact Ha.
  induction s as [|c r IH].
  - rewrite ?string_app_cons, ?string_app_nil; idtac. rewrite TrimLeft_all_space by exact Hb. reflexivity.
  - rewrite ?string_app_cons, ?string_app_nil; cbn [TrimLeft]. destruct (IsSpace c); [exact IH|].
    apply (TrimRight_padding (String c r) b Hb).
Qed.

Lemma TrimLeft_decompose (s : string) :
  exists a, all_space a = true /\ s = a ++ TrimLeft s.
Proof.
  induction s as [|c r (a & Ha & E)]; [exists EmptyString; auto|].
  cbn [TrimLeft]. destruct (IsSpace c) eqn:Hc.
  - exists (String c a). rewrite ?string_app_cons, ?string_app_nil; cbn [all_space]. rewrite Hc, Ha, <- E. auto.
  - exists EmptyString. auto.
Qed.

Lemma TrimRight_decompose (s : string) :
  exists b, all_space b = true /\ s = TrimRight s ++ b.
Proof.
  induction s as [|c r (b & Hb & E)]; [exists EmptyString; auto|].
  cbn [TrimRight]. destruct (TrimRight r) as [|d r'] eqn:Hr.
  - rewrite ?string_app_cons, ?string_app_nil in E. subst r. destruct (IsSpace c) eqn:Hc.
    + exists (String c b). rewrite ?string_app_cons, ?string_app_nil; cbn [all_space]. rewrite Hc, Hb. auto.
    + exists b. auto.
  - exists b. split; [exact Hb|]. rewrite ?string_app_cons, ?string_app_nil; idtac. rewrite E at 1. reflexivity.
Qed.

Lemma string_app_nil_r (s : string) : s ++ EmptyString = s.
Proof.
  induction s as [|c r IH]; [reflexivity|].
  rewrite string_app_cons, IH. reflexivity.
Qed.

Lemma TrimSpace_TrimLeft (s : string) : TrimSpace (TrimLeft s) = TrimSpace s.
Proof.
  destruct (TrimLeft_decompose s) as (a & Ha & E).
  rewrite <- (TrimSpace_padding a (TrimLeft s) EmptyString Ha eq_refl).
  rewrite string_app_nil_r, <- E. reflexivity.
Qed.

Lemma TrimSpace_TrimRight (s : string) : TrimSpace (TrimRight s) = TrimSpace s.
Proof.
  destruct (TrimRight_decompose s) as (b & Hb & E).
  rewrite E at 2.
  symmetry. apply (TrimSpace_padding EmptyString (TrimRight s) b eq_refl Hb).
Qed.

Lemma Count_app (c : ascii) (a b : string) :
  Count c (a ++ b) = (Count c a + Count c b)%nat.
Proof. induction a as [|d r IH]; [reflexivity|]. rewrite ?string_app_cons, ?string_app_nil; cbn. rewrite IH. lia. Qed.

Lemma Count_TrimLeft (c : ascii) (s : string) :
  Count c s = 0%nat -> Count c (TrimLeft s) = 0%nat.
Proof.
  destruct (TrimLeft_decompose s) as (a & _ & E). rewrite E at 1.
  rewrite Count_app. lia.
Qed.

Lemma Count_TrimRight (c : ascii) (s : string) :
  Count c s = 0%nat -> Count c (TrimRight s) = 0%nat.
Proof.
  destruct (TrimRight_decompose s) as (b & _ & E). rewrite E at 1.
  rewrite Count_app. lia.
Qed.

Lemma Split_no_sep (c : ascii) (s : string) :
  Count c s = 0%nat -> Split c s = [s].
Proof.
  induction s as [|d r IH]; [reflexivity|]. rewrite ?string_app_cons, ?string_app_nil; cbn.
  destruct (Ascii.eqb d c); [discriminate|]. rewrite ?string_app_cons, ?string_app_nil; cbn. intros Hr.
  rewrite (IH Hr). reflexivity.
Qed.

Lemma Split_app_sep (c : ascii) (a b : string) :
  Count c a = 0%nat -> Split c (a ++ String c b) = a :: Split c b.
Proof.
  induction a as [|d r IH].
  - rewrite ?string_app_cons, ?string_app_nil; cbn. rewrite Ascii.eqb_refl. reflexivity.
  - rewrite ?string_app_cons, ?string_app_nil; cbn. destruct (Ascii.eqb d c); [discriminate|]. rewrite ?string_app_cons, ?string_app_nil; cbn. intros Hr.
    rewrite (IH Hr). reflexivity.
Qed.

Lemma Split_snoc_sep (c : ascii) (s : string) :
  Split c (s ++ String c EmptyString) = (Split c s ++ [EmptyString])%list.
Proof.
  induction s as [|d r IH].
  - rewrite ?string_app_cons, ?string_app_nil; cbn. rewrite Ascii.eqb_refl. reflexivity.
  - rewrite ?string_app_cons, ?string_app_nil; cbn [Split]. rewrite IH.
    destruct (Ascii.eqb d c); [reflexivity|].
    destruct (Split c r) as [|h t] eqn:E; [|reflexivity].
    pose proof (Split_length c r) as Hl. rewrite E in Hl. discriminate.
Qed.

Lemma TrimLeft_app_nonspace (p s : string) (c : ascii) :
  IsSpace c = false -> TrimLeft (p ++ String c s) = TrimLeft p ++ String c s.
Proof.
  intros Hc. induction p as [|d r IH].
  - rewrite ?string_app_cons, ?string_app_nil; cbn [TrimLeft]. rewrite Hc. reflexivity.
  - rewrite ?string_app_cons, ?string_app_nil; cbn [TrimLeft]. destruct (IsSpace d); [exact IH | reflexivity].
Qed.

Lemma TrimRight_app_nonspace (x n : string) (c : ascii) :
  IsSpace c = false -> TrimRight (x ++ String c n) = x ++ String c (TrimRight n).
Proof.
  intros Hc. induction x as [|d r IH].
  - rewrite ?string_app_cons, ?string_app_nil; cbn [TrimRight]. rewrite Hc. destruct (TrimRight n); reflexivity.
  - rewrite ?string_app_cons, ?string_app_nil; cbn [TrimRight]. rewrite IH. destruct r; reflexivity.
Qed.

Lemma TrimSpace_at_sign (p n : string) :
  TrimSpace (p ++ "@" ++ n) = TrimLeft p ++ String "@" (TrimRight n).
Proof.
  unfold TrimSpace. change ("@" ++ n) with (String "@" n).
  rewrite TrimLeft_app_nonspace by reflexivity.
  apply TrimRight_app_nonspace. reflexivity.
Qed.

Lemma prefix_hash_app (x y : string) :
  x <> EmptyString -> String.prefix "#" (x ++ y) = String.prefix "#" x.
Proof.
  assert (Hnil : forall z, String.prefix EmptyString z = true)
    by (intros [|? ?]; reflexivity).
  destruct x as [|d r]; [contradiction|]. intros _.
  rewrite string_app_cons. cbn [String.prefix].
  destruct (ascii_dec "#" d); [|reflexivity]. rewrite !Hnil. reflexivity.
Qed.

(** A line with one [@]: both sides are trimmed and handed to [add_rule]. *)
Lemma load_line_at_sign (ranges : gmap string WeeklyRanges) (lineNo : Z)
    (p n : string) (pm : PatternMatcher) :
  Count "@" p = 0%nat -> Count "@" n = 0%nat ->
  HasPrefix (TrimLeft p) "#" = false ->
  load_line ranges lineNo (p ++ "@" ++ n) pm
  = add_rule ranges lineNo (TrimSpace p) (TrimSpace n) pm.
Proof.
  intros Hp Hn Hc. unfold load_line. rewrite TrimSpace_at_sign.
  assert (Hlen : (String.length (TrimLeft p ++ String "@" (TrimRight n)) =? 0)%nat = false)
    by (destruct (TrimLeft p); reflexivity).
  assert (Hpre : HasPrefix (TrimLeft p ++ String "@" (TrimRight n)) "#" = false).
  { unfold HasPrefix in *. destruct (TrimLeft p) as [|d r] eqn:E; [reflexivity|].
    rewrite prefix_hash_app by discriminate. exact Hc. }
  rewrite Hlen, Hpre. cbn [orb].
  rewrite (Split_app_sep "@" (TrimLeft p) (TrimRight n)) by (apply Count_TrimLeft; exact Hp).
  rewrite Split_no_sep by (apply Count_TrimRight; exact Hn).
  cbn [List.length Nat.eqb nth].
  rewrite TrimSpace_TrimLeft, TrimSpace_TrimRight. reflexivity.
Qed.

Lemma add_rule_no_name (ranges : gmap string WeeklyRanges) (lineNo : Z)
    (pattern : string) (pm : PatternMatcher) :
  add_rule ranges lineNo pattern EmptyString pm
  = (let '(pm', err) := PatternMatcher_Add pm pattern None (lineNo + 1) in
     (pm', add_error_log err)).
Proof.
  rewrite add_rule_spec. unfold gate_for. rewrite ?string_app_cons, ?string_app_nil; cbn.
  destruct (PatternMatcher_Add _ _ _ _) as [pm' err]. reflexivity.
Qed.

(** X9.  A time range the catalog knows gates the rule.  On a line
    [pattern @ name], with spaces at will around both, whose name is in the
    catalog, the loader calls [PatternMatcher.Add] with the trimmed pattern,
    the catalog's weekly ranges and the line number, and logs nothing but an
    error of [Add]. *)
Theorem known_time_range_adds_gated_rule (ranges : gmap string WeeklyRanges)
    (lineNo : Z) (p n : string) (wr : WeeklyRanges) (pm : PatternMatcher) :
  Count "@" p = 0%nat -> Count "@" n = 0%nat ->
  HasPrefix (TrimLeft p) "#" = false ->
  TrimSpace n <> EmptyString ->
  ranges !! TrimSpace n = Some wr ->
  load_line ranges lineNo (p ++ "@" ++ n) pm
  = (let '(pm', err) := PatternMatcher_Add pm (TrimSpace p) (Some wr) (lineNo + 1) in
     (pm', add_error_log err)).
Proof.
  intros Hp Hn Hc Hne Hr.
  rewrite load_line_at_sign by assumption.
  rewrite add_rule_spec. unfold gate_for.
  assert (Hlen : (0 <? String.length (TrimSpace n))%nat = true)
    by (destruct (TrimSpace n); [contradiction | reflexivity]).
  rewrite Hlen, Hr.
  destruct (PatternMatcher_Add _ _ _ _) as [pm' err]. reflexivity.
Qed.

(** X10.  An [@] with nothing but spaces behind it is passed over in silence: the
    catalog is not consulted, no diagnostic is logged for the missing name,
    and the rule is added without gate. *)
Theorem empty_time_range_name_is_ignored (ranges : gmap string WeeklyRanges)
    (lineNo : Z) (p n : string) (pm : PatternMatcher) :
  Count "@" p = 0%nat ->
  HasPrefix (TrimLeft p) "#" = false ->
  all_space n = true ->
  load_line ranges lineNo (p ++ "@" ++ n) pm
  = (let '(pm', err) := PatternMatcher_Add pm (TrimSpace p) None (lineNo + 1) in
     (pm', add_error_log err)).
Proof.
  intros Hp Hc Hn.
  assert (Hcount : Count "@" n = 0%nat).
  { clear -Hn. induction n as [|c r IH]; [reflexivity|].
    cbn [all_space Count] in *.
    apply andb_true_iff in Hn as [Hc Hr].
    destruct (Ascii.eqb_spec c "@") as [->|_]; [discriminate Hc|]. auto. }
  rewrite load_line_at_sign by assumption.
  assert (E : TrimSpace n = EmptyString).
  { unfold TrimSpace. rewrite TrimLeft_all_space by exact Hn. reflexivity. }
  rewrite E. apply add_rule_no_name.
Qed.

(** X11.  A line without [@], neither blank nor starting with [#]: the whole
    trimmed line is the pattern handed to [PatternMatcher.Add], without
    gate; a [#] further on does not start a comment. *)
Theorem plain_line_adds_ungated_rule (ranges : gmap string WeeklyRanges)
    (lineNo : Z) (line : string) (pm : PatternMatcher) :
  Count "@" line = 0%nat ->
  skipped_line line = false ->
  load_line ranges lineNo line pm
  = (let '(pm', err) := PatternMatcher_Add pm (TrimSpace line) None (lineNo + 1) in
     (pm', add_error_log err)).
Proof.
  intros Hat Hs. unfold load_line. unfold skipped_line in Hs. rewrite Hs.
  rewrite Split_no_sep
    by (unfold TrimSpace; apply Count_TrimRight, Count_TrimLeft; exact Hat).
  cbn [List.length Nat.eqb Nat.ltb Nat.leb]. apply add_rule_no_name.
Qed.

(** X12.  Spaces, tabs and carriage returns around a line do not count: a rule
    file with CRLF line ends or indented lines loads like the plain one. *)
Theorem padding_around_a_line_is_ignored (ranges : gmap string WeeklyRanges)
    (lineNo : Z) (a line b : string) (pm : PatternMatcher) :
  all_space a = true -> all_space b = true ->
  load_line ranges lineNo (a ++ line ++ b) pm = load_line ranges lineNo line pm.
Proof.
  intros Ha Hb. unfold load_line. rewrite TrimSpace_padding by assumption.
  reflexivity.
Qed.

Lemma load_lines_skipped (ranges : gmap string WeeklyRanges) (lines : list string) :
  Forall (fun l => skipped_line l = true) lines ->
  forall (lineNo : Z) (pm : PatternMatcher),
    load_lines ranges lineNo lines pm = (pm, []).
Proof.
  induction 1 as [|l rest Hl _ IH]; intros lineNo pm; [reflexivity|].
  cbn [load_lines]. unfold load_line at 1. unfold skipped_line in Hl. rewrite Hl.
  rewrite IH. reflexivity.
Qed.

(** X13.  A rule file of blank lines and comments only, the empty file among
    them: [Init] succeeds, publishes the matcher as [NewPatternPatcher]
    made it and logs its notice only. *)
Theorem comments_only_file_loads_no_rule (proxy : Proxy) (g : option BlockedNames)
    (bin : string) :
  ReadTextFile (blockNameFile proxy) = inl bin ->
  Forall (fun l => skipped_line l = true) (Split "010" bin) ->
  init_err (PluginBlockName_Init proxy g) = None
  /\ init_log (PluginBlockName_Init proxy g)
     = [(SevNotice, "Loading the set of blocking rules from ["
                    ++ blockNameFile proxy ++ "]")]
  /\ exists bn,
       init_blockedNames (PluginBlockName_Init proxy g) = Some bn
       /\ patternMatcher bn = NewPatternPatcher.
Proof.
  intros Hr Hs.
  destruct (Init_after_read proxy g bin Hr) as (He & Hlog & bn & Hb & Hp & _).
  rewrite (load_lines_skipped _ _ Hs) in Hlog, Hp.
  split; [exact He|]. split; [exact Hlog|]. exists bn. auto.
Qed.

(** X14.  A newline at the end of the rule file changes nothing: the empty last
    line it makes is passed over. *)
Theorem final_newline_is_ignored (ranges : gmap string WeeklyRanges) (lineNo : Z)
    (bin : string) (pm : PatternMatcher) :
  load_lines ranges lineNo (Split "010" (bin ++ newline)) pm
  = load_lines ranges lineNo (Split "010" bin) pm.
Proof.
  unfold newline. rewrite Split_snoc_sep, load_lines_app.
  destruct (load_lines ranges lineNo (Split "010" bin) pm) as [pm1 log1].
  rewrite ?string_app_cons, ?string_app_nil; cbn. rewrite app_nil_r. reflexivity.
Qed.

(** X15.  The diagnostics carry the line number as an editor shows it: for the
    line that comes after [k] others, the syntax error on a second [@]
    names line [k + 1], and it is in the log of the whole load. *)
Theorem syntax_error_names_the_line (ranges : gmap string WeeklyRanges)
    (before after : list string) (line : string) (pm : PatternMatcher) :
  skipped_line line = false ->
  (1 < Count "@" (TrimSpace line))%nat ->
  In (SevError,
      "Syntax error in block rules at line "
      ++ fmt_d (Z.of_nat (List.length before) + 1) ++ " -- Unexpected @ character")
     (snd (load_lines ranges 0 (before ++ line :: after) pm)).
Proof.
  intros Hs Hat. rewrite load_lines_app.
  destruct (load_lines ranges 0 before pm) as [pm1 log1].
  cbn [load_lines].
  assert (Hl : load_line ranges (0 + Z.of_nat (List.length before)) line pm1
               = (pm1, [(SevError,
                         "Syntax error in block rules at line "
                         ++ fmt_d (Z.of_nat (List.length before) + 1)
                         ++ " -- Unexpected @ character")])).
  { unfold load_line. unfold skipped_line in Hs. rewrite Hs. cbn zeta.
    rewrite Split_length.
    replace (S (Count "@" (TrimSpace line)) =? 2)%nat with false
      by (symmetry; apply Nat.eqb_neq; lia).
    replace (2 <? S (Count "@" (TrimSpace line)))%nat with true
      by (symmetry; apply Nat.ltb_lt; lia).
    replace (1 + (0 + Z.of_nat (List.length before)))%Z
      with (Z.of_nat (List.length before) + 1)%Z by lia.
    reflexivity. }
  rewrite Hl. destruct (load_lines _ _ after pm1) as [pm3 log3].
  cbn [snd]. apply in_or_app. right. left. reflexivity.
Qed.

End LineGrammar.

(** ** The further properties at concrete inputs *)

Section FurtherWitnesses.
Import SpecHost Examples.

Ltac answers_well_typed :=
  unfold well_typed_answers; simpl;
  repeat (apply List.Forall_cons;
          [intros E; first [discriminate E | eexists _, _; reflexivity]|]);
  apply List.Forall_nil.

(** The plain calls of the plugin interface leave the rules alone. *)
Lemma lifecycle_calls_keep_the_rules (g : option (@BlockedNames spec_host))
    (proxy : @Proxy spec_host) :
  PluginBlockName_Drop g = (None, g)
  /\ PluginBlockName_Reload g = (None, g)
  /\ PluginBlockNameResponse_Drop g = (None, g)
  /\ PluginBlockNameResponse_Reload g = (None, g)
  /\ init_blockedNames (PluginBlockNameResponse_Init proxy g) = g.
Proof. repeat split. Qed.

Lemma audit_line_written_witness :
  check (blocked "tsv") "Foo.ADS.example." (Some "x.") st0 (world_at wednesday_noon)
  = Returned (true, None) (rejected st0)
      (append_line (tsv_line "foo.ads.example" "ads.example (alias for [x])")
         (tick (world_at wednesday_noon)))
  /\ check blocked_plain "Foo.ADS.example." None st0 (world_at wednesday_noon)
     = Returned (true, None) (rejected st0)
         (append_line (ltsv_line "foo.ads.example" "ads.example")
            (tick (world_at wednesday_noon))).
Proof.
  split.
  - destruct (audit_line_written (blocked "tsv") log_file "Foo.ADS.example."
                (Some "x.") st0 (world_at wednesday_noon) "ads.example" (Some None)
                eq_refl eq_refl eq_refl eq_refl) as [A _].
    exact (A eq_refl).
  - destruct (audit_line_written blocked_plain log_file "Foo.ADS.example."
                None st0 (world_at wednesday_noon) "ads.example" (Some None)
                eq_refl eq_refl eq_refl eq_refl) as [_ A].
    exact (A eq_refl).
Defined.

Lemma alias_does_not_change_decision_witness :
  exists w'',
    check (blocked "tsv") "ads.example." None st0 (world_at wednesday_noon)
    = Returned (true, None) (rejected st0) w''
    /\ reads w'' = 1%nat
    /\ List.length (written w'') = 1%nat.
Proof.
  apply (alias_does_not_change_decision (blocked "tsv") "ads.example."
           (Some "x.") None st0 (rejected st0) (world_at wednesday_noon)
           (append_line (tsv_line "ads.example" "ads.example (alias for [x])")
              (tick (world_at wednesday_noon)))
           true None).
  reflexivity.
Defined.

(** A name that passes, on a state rejected before. *)
Lemma check_keeps_rejection_and_frame_witness :
  clientProto (rejected st0) = "udp"
  /\ clientAddr (rejected st0) = clientAddr st0
  /\ sessionData (rejected st0) = sessionData st0
  /\ otherFields (rejected st0) = otherFields st0
  /\ (action (rejected st0) = Reject -> action (rejected st0) = Reject)
  /\ (returnCode (rejected st0) = Reject -> returnCode (rejected st0) = Reject).
Proof.
  apply (check_keeps_rejection_and_frame (blocked "tsv") "fine.example." None
           (rejected st0) (rejected st0) (world_at wednesday_noon)
           (world_at wednesday_noon) false None).
  reflexivity.
Defined.

Lemma query_eval_rejects_iff_witness :
  (exists w',
     PluginBlockName_Eval (Some (blocked "tsv")) (query "ads.example.") st0
       (world_at wednesday_noon)
     = Returned None (rejected st0) w')
  /\ (exists w',
        PluginBlockName_Eval (Some (blocked "tsv")) (query "social.") st0
          (world_at saturday_noon)
        = Returned None st0 w').
Proof.
  split.
  - destruct (query_eval_rejects_iff (Some (blocked "tsv")) (query "ads.example.")
                st0 (world_at wednesday_noon)) as (_ & A).
    apply (A (blocked "tsv") (question "ads.example.")); try reflexivity.
    apply st0_well_configured. left. reflexivity.
  - destruct (query_eval_rejects_iff (Some (blocked "tsv")) (query "social.")
                st0 (world_at saturday_noon)) as (_ & A).
    apply (A (blocked "tsv") (question "social.")); try reflexivity.
    apply st0_well_configured. left. reflexivity.
Defined.

(** Two blocked aliases in the answer, one audit line. *)
Lemma response_eval_at_most_one_audit_line_witness :
  (rejected st0 = st0 /\ written
      (append_line (tsv_line "ads.example" "ads.example (alias for [x])")
         (tick (world_at wednesday_noon))) = written (world_at wednesday_noon))
  \/ (rejected st0 = rejected st0
      /\ exists bn,
           Some (blocked "tsv") = Some bn
           /\ ((logger bn = None /\ written
                   (append_line (tsv_line "ads.example" "ads.example (alias for [x])")
                      (tick (world_at wednesday_noon)))
                 = written (world_at wednesday_noon))
               \/ (logger bn <> None
                   /\ exists line,
                        written
                          (append_line
                             (tsv_line "ads.example" "ads.example (alias for [x])")
                             (tick (world_at wednesday_noon)))
                        = (written (world_at wednesday_noon) ++ [line])%list))).
Proof.
  apply (response_eval_at_most_one_audit_line (Some (blocked "tsv")) eighth_is_blocked
           st0 (rejected st0) (world_at wednesday_noon)
           (append_line (tsv_line "ads.example" "ads.example (alias for [x])")
              (tick (world_at wednesday_noon)))
           None).
  reflexivity.
Defined.

(** The question [ads.example.] is blocked on the query side; its response,
    made of address records, goes through the response side. *)
Lemma response_without_cname_is_passed_witness :
  PluginBlockNameResponse_Eval (Some (blocked "tsv")) a_records_only st0
    (world_at wednesday_noon)
  = Returned None st0 (world_at wednesday_noon).
Proof.
  apply (response_without_cname_is_passed (Some (blocked "tsv")) a_records_only st0
           (world_at wednesday_noon)).
  reflexivity.
Defined.

Lemma Add_keeps_ungated (m : Matcher) (text : string) (line : Z) :
  Forall (fun r => time_gate r = None) m ->
  Forall (fun r => time_gate r = None) (fst (Add m text None line)).
Proof.
  intros Hm. unfold Add. destruct (classify _) as [k name].
  destruct (String.length name =? 0)%nat; [exact Hm|].
  cbn [fst]. apply Forall_app. split; [exact Hm|]. repeat constructor.
Qed.

Lemma first_hit_in (ks : list Kind) (m : Matcher) (name : string) (r : Rule) :
  first_hit ks m name = Some r -> In r m.
Proof.
  induction ks as [|k ks IH]; [discriminate|]. cbn [first_hit].
  destruct (first_of k m name) as [r'|] eqn:E; [|exact IH].
  intros [= <-]. unfold first_of in E. apply List.find_some in E. tauto.
Qed.

Lemma plain_rules_ungated : ungated blocked_plain.
Proof.
  assert (Hp : Forall (fun r => time_gate r = None) plain_rules)
    by (unfold plain_rules; apply Add_keeps_ungated, Add_keeps_ungated; constructor).
  intros name.
  change (PatternMatcher_Eval (patternMatcher blocked_plain) name)
    with (Eval plain_rules name).
  unfold Eval.
  destruct (first_hit _ plain_rules name) as [r|] eqn:E; [|reflexivity].
  apply first_hit_in in E. rewrite Forall_forall in Hp.
  cbn. apply Hp. apply list_elem_of_In. exact E.
Qed.

Lemma response_eval_rejects_iff_an_alias_matches_witness :
  (exists w',
     PluginBlockNameResponse_Eval (Some blocked_plain) second_alias_blocked st0
       (world_at wednesday_noon) = Returned None (rejected st0) w')
  /\ (exists w',
        PluginBlockNameResponse_Eval (Some blocked_plain) cname_chain st0
          (world_at wednesday_noon) = Returned None st0 w').
Proof.
  assert (Hwc : well_configured blocked_plain st0)
    by (right; split; [right; reflexivity | reflexivity]).
  split.
  - destruct (response_eval_rejects_iff_an_alias_matches blocked_plain
                second_alias_blocked (question "x.") st0 (world_at wednesday_noon)
                eq_refl eq_refl plain_rules_ungated Hwc) as (w' & E);
      [answers_well_typed|].
    exists w'. exact E.
  - destruct (response_eval_rejects_iff_an_alias_matches blocked_plain
                cname_chain (question "x.") st0 (world_at wednesday_noon)
                eq_refl eq_refl plain_rules_ungated Hwc) as (w' & E);
      [answers_well_typed|].
    exists w'. exact E.
Defined.

Lemma without_log_file_eval_always_returns_witness :
  (exists st' w',
     PluginBlockName_Eval (init_blockedNames (PluginBlockName_Init proxy_no_log None))
       (query "ads.example.") st0 (world_at wednesday_noon)
     = Returned None st' w' /\ written w' = written (world_at wednesday_noon))
  /\ (exists st' w',
        PluginBlockNameResponse_Eval
          (init_blockedNames (PluginBlockName_Init proxy_no_log None))
          cname_chain st0 (world_at wednesday_noon)
        = Returned None st' w' /\ written w' = written (world_at wednesday_noon)).
Proof.
  destruct (without_log_file_eval_always_returns proxy_no_log None rules
              (query "ads.example.") st0 (world_at wednesday_noon) eq_refl eq_refl)
    as (A & _).
  destruct (without_log_file_eval_always_returns proxy_no_log None rules
              cname_chain st0 (world_at wednesday_noon) eq_refl eq_refl)
    as (_ & B).
  split; [exact A|]. apply B. answers_well_typed.
Defined.

Lemma known_time_range_adds_gated_rule_witness :
  load_line catalog 3 ("social " ++ "@" ++ " work-hours ") no_rules
  = ([{| kind := Suffix; pattern := "social"; raw_text := "social";
         time_gate := Some work_hours; line_number := 4 |}], []).
Proof.
  apply (known_time_range_adds_gated_rule catalog 3 "social " " work-hours "
           work_gate no_rules); try reflexivity.
  discriminate.
Defined.

Lemma empty_time_range_name_is_ignored_witness :
  load_line catalog 3 ("social " ++ "@" ++ "  ") no_rules
  = ([{| kind := Suffix; pattern := "social"; raw_text := "social";
         time_gate := None; line_number := 4 |}], []).
Proof.
  apply (empty_time_range_name_is_ignored catalog 3 "social " "  " no_rules);
    reflexivity.
Defined.

(** The first rule line of the spec's sample file: the trailing comment is
    part of the pattern. *)
Lemma plain_line_adds_ungated_rule_witness :
  load_line catalog 1 "ads.example                  # suffix" no_rules
  = ([{| kind := Suffix; pattern := "ads.example                  # suffix";
         raw_text := "ads.example                  # suffix";
         time_gate := None; line_number := 2 |}], []).
Proof.
  apply (plain_line_adds_ungated_rule catalog 1
           "ads.example                  # suffix" no_rules); reflexivity.
Defined.

(** An indented line that ends with a carriage return. *)
Lemma padding_around_a_line_is_ignored_witness :
  load_line catalog 1 ("  " ++ "ads.example" ++ carriage_return) no_rules
  = load_line catalog 1 "ads.example" no_rules.
Proof.
  apply (padding_around_a_line_is_ignored catalog 1 "  " "ads.example"
           carriage_return no_rules); reflexivity.
Defined.

Lemma comments_only_file_loads_no_rule_witness :
  init_err (PluginBlockName_Init proxy_comments None) = None
  /\ init_log (PluginBlockName_Init proxy_comments None)
     = [(SevNotice, "Loading the set of blocking rules from [blocked-names.txt]")]
  /\ exists bn,
       init_blockedNames (PluginBlockName_Init proxy_comments None) = Some bn
       /\ patternMatcher bn = @NewPatternPatcher comments_host.
Proof.
  apply (comments_only_file_loads_no_rule proxy_comments None comments eq_refl).
  repeat constructor.
Defined.

Lemma syntax_error_names_the_line_witness :
  In (SevError, "Syntax error in block rules at line 3 -- Unexpected @ character")
     (snd (load_lines catalog 0 ["ads.example"; "# two"; "a@b@c"; "=only.example"]
             no_rules)).
Proof.
  apply (syntax_error_names_the_line catalog ["ads.example"; "# two"] ["=only.example"]
           "a@b@c" no_rules).
  - reflexivity.
  - vm_compute. lia.
Defined.

End FurtherWitnesses.
